(** * Pull-Partition-Images-ADB: a shallow embedding of
      [pull_partition_images_ADB.py] and the properties of its pipeline.

    The program is a linear pipeline of external-process calls.  Every
    external result (the text printed by an [adb shell] command, its return
    code, the lines typed at the console, the bytes produced by the
    device-side [dd]) is an explicit argument of the function that consumes
    it; everything the Python code computes from those results is embedded
    as an executable Rocq function.

    Characters.  A Python [str] is a sequence of Unicode code points.  The
    model uses Rocq's [string], whose characters are the 256 values of
    [ascii], read as the code points U+0000..U+00FF; [lower], [isspace] and
    [isdigit] below follow Python on exactly that range.

    Outside the model: the diagnostics the bridge and [dd] write to their
    error stream, the rendering of the progress meter, and failures to
    start a process or to open the destination file. *)

From Stdlib Require Import String Ascii List ZArith Bool Arith Lia.
From Stdlib Require Import Strings.Byte Numbers.DecimalString Numbers.DecimalNat.
From Equations Require Import Equations.
From Equations.Prop Require Import Logic.
Import ListNotations.

Local Open Scope string_scope.
Local Open Scope list_scope.

(* ===================================================================== *)
(** ** Python string primitives used by the program                       *)
(* ===================================================================== *)

Module PyStr.

(** [str.lower] on one code point below 256: A-Z and the Latin-1 capitals
    (U+00C0..U+00DE except the multiplication sign U+00D7) move up by 32. *)
Definition char_lower (c : ascii) : ascii :=
  let n := nat_of_ascii c in
  if (((65 <=? n) && (n <=? 90))
      || ((192 <=? n) && (n <=? 222) && negb (n =? 215)))%nat
  then ascii_of_nat (n + 32)
  else c.

Fixpoint lower (s : string) : string :=
  match s with
  | EmptyString => EmptyString
  | String c s' => String (char_lower c) (lower s')
  end.

(** [sub in s]: substring test. *)
Fixpoint contains (sub s : string) : bool :=
  prefix sub s
  || match s with
     | EmptyString => false
     | String _ s' => contains sub s'
     end.

(** [str.isspace] on one code point below 256. *)
Definition isspace (c : ascii) : bool :=
  let n := nat_of_ascii c in
  (((9 <=? n) && (n <=? 13)) || ((28 <=? n) && (n <=? 32))
   || (n =? 133) || (n =? 160))%nat.

(** [s.split()]: maximal runs of non-whitespace characters.  [cur] is the
    token being read, [None] between tokens. *)
Fixpoint split_ws_aux (cur : option string) (s : string) : list string :=
  match s with
  | EmptyString =>
      match cur with Some t => [t] | None => [] end
  | String c s' =>
      if isspace c then
        match cur with
        | Some t => t :: split_ws_aux None s'
        | None => split_ws_aux None s'
        end
      else
        match cur with
        | Some t => split_ws_aux (Some (t ++ String c EmptyString)%string) s'
        | None => split_ws_aux (Some (String c EmptyString)) s'
        end
  end.

Definition split_ws (s : string) : list string := split_ws_aux None s.

(** [s.split(sep)] for a one-character separator: always at least one
    field, empty fields kept. *)
Fixpoint split_on_aux (sep : ascii) (cur : string) (s : string) : list string :=
  match s with
  | EmptyString => [cur]
  | String c s' =>
      if Ascii.eqb c sep then cur :: split_on_aux sep EmptyString s'
      else split_on_aux sep (cur ++ String c EmptyString)%string s'
  end.

Definition split_on (sep : ascii) (s : string) : list string :=
  split_on_aux sep EmptyString s.

(** [s.strip()] *)
Fixpoint lstrip (s : string) : string :=
  match s with
  | EmptyString => EmptyString
  | String c s' => if isspace c then lstrip s' else s
  end.

Fixpoint rstrip (s : string) : string :=
  match s with
  | EmptyString => EmptyString
  | String c s' =>
      match rstrip s' with
      | EmptyString => if isspace c then EmptyString else String c EmptyString
      | r => String c r
      end
  end.

Definition strip (s : string) : string := rstrip (lstrip s).

(** [str.isdigit] on one code point below 256: the decimal digits and the
    superscripts U+00B2, U+00B3, U+00B9. *)
Definition char_isdigit (c : ascii) : bool :=
  let n := nat_of_ascii c in
  (((48 <=? n) && (n <=? 57))
   || (n =? 178) || (n =? 179) || (n =? 185))%nat.

(** [str.isdecimal] on one code point below 256. *)
Definition char_isdecimal (c : ascii) : bool :=
  let n := nat_of_ascii c in ((48 <=? n) && (n <=? 57))%nat.

Fixpoint forall_chars (p : ascii -> bool) (s : string) : bool :=
  match s with
  | EmptyString => true
  | String c s' => p c && forall_chars p s'
  end.

(** [s.isdigit()]: at least one character, and all of them digits. *)
Definition isdigit (s : string) : bool :=
  match s with
  | EmptyString => false
  | _ => forall_chars char_isdigit s
  end.

Fixpoint decimal_value (acc : Z) (s : string) : Z :=
  match s with
  | EmptyString => acc
  | String c s' =>
      decimal_value (10 * acc + (Z.of_nat (nat_of_ascii c) - 48))%Z s'
  end.

(** [int(s)] as the program uses it, on a string for which [isdigit]
    holds: the value of a run of decimal digits; [None] stands for the
    [ValueError] raised on a digit that is not decimal.  The interpreter
    also raises [ValueError] on a string of more than 4300 digits; this
    function agrees with [int] on the strings within that limit, and the
    statements about what is typed or printed bound its length (see
    [within_digit_limit]). *)
Definition int (s : string) : option Z :=
  match s with
  | EmptyString => None
  | _ => if forall_chars char_isdecimal s then Some (decimal_value 0 s)
         else None
  end.

(** [l[-k]] for [k >= 1]; [None] stands for [IndexError]. *)
Definition index_from_end {A} (l : list A) (k : nat) : option A :=
  if ((1 <=? k) && (k <=? List.length l))%nat
  then nth_error l (List.length l - k)
  else None.

End PyStr.

(* ===================================================================== *)
(** ** Outcomes of a call: a value, an uncaught exception, or [exit]       *)
(* ===================================================================== *)

Inductive exn : Type :=
| IndexError
| ValueError
| EOFError.

Inductive outcome (A : Type) : Type :=
| Returned (a : A)
| Raised (e : exn)
| Exited (status : Z).
Arguments Returned {A} a.
Arguments Raised {A} e.
Arguments Exited {A} status.

Definition bind {A B} (m : outcome A) (k : A -> outcome B) : outcome B :=
  match m with
  | Returned a => k a
  | Raised e => Raised e
  | Exited n => Exited n
  end.

Notation "x <- m ;; k" := (bind m (fun x => k))
  (at level 61, m at next level, right associativity).

Definition of_option {A} (e : exn) (o : option A) : outcome A :=
  match o with
  | Some a => Returned a
  | None => Raised e
  end.

(** The result of [subprocess.run(..., capture_output=True, text=True)]. *)
Record completed := { returncode : Z; stdout : string }.

(* ===================================================================== *)
(** ** [get_partition_category]                                           *)
(* ===================================================================== *)

(** The dictionary literal, in insertion order (the order [for key in
    categories] visits it).  The keys are distinct, so [categories[key]]
    is the value paired with [key] here. *)
Definition categories : list (string * string) :=
  [ ("boot", "Bootloader");
    ("recovery", "Recovery");
    ("system", "Android System");
    ("vendor", "Vendor Data");
    ("userdata", "User Data");
    ("cache", "Cache");
    ("metadata", "Metadata");
    ("modem", "Modem Firmware");
    ("persist", "Persistent Storage");
    ("dtbo", "Device Tree Blob");
    ("vbmeta", "Verified Boot Metadata") ].

Fixpoint first_match (cats : list (string * string)) (lowered : string)
  : string :=
  match cats with
  | [] => "Unknown"
  | (key, category) :: rest =>
      if PyStr.contains key lowered then category
      else first_match rest lowered
  end.

Definition get_partition_category (partition_name : string) : string :=
  first_match categories (PyStr.lower partition_name).

(* ===================================================================== *)
(** ** [list_partitions]                                                  *)
(* ===================================================================== *)

(** A partition descriptor: the tuple
    [(partition_name, partition_label, category)]. *)
Definition descriptor : Type := (string * string * string)%type.

Definition node_of (d : descriptor) : string := fst (fst d).
Definition label_of (d : descriptor) : string := snd (fst d).
Definition category_of (d : descriptor) : string := snd d.

Definition NEWLINE : ascii := ascii_of_nat 10.
Definition SLASH : ascii := "/"%char.

(** The body of the [if "->" in line:] block. *)
Definition parse_symlink_line (line : string) : outcome descriptor :=
  let parts := PyStr.split_ws line in
  partition_label <- of_option IndexError (PyStr.index_from_end parts 3) ;;
  target <- of_option IndexError (PyStr.index_from_end parts 1) ;;
  partition_name <-
    of_option IndexError
      (PyStr.index_from_end (PyStr.split_on SLASH target) 1) ;;
  Returned (partition_name, partition_label,
            get_partition_category partition_label).

(** [for line in result.stdout.split("\n"): ...], appending to
    [partitions]. *)
Fixpoint named_loop (lines : list string) (partitions : list descriptor)
  : outcome (list descriptor) :=
  match lines with
  | [] => Returned partitions
  | line :: rest =>
      if PyStr.contains "->" line then
        d <- parse_symlink_line line ;;
        named_loop rest (partitions ++ [d])
      else named_loop rest partitions
  end.

(** The first half of [list_partitions]: what the listing of
    [/dev/block/by-name] yields. *)
Definition named_pass (listing : completed) : outcome (list descriptor) :=
  if (returncode listing =? 0)%Z
  then named_loop (PyStr.split_on NEWLINE (stdout listing)) []
  else Returned [].

(** The list comprehension over the listing of [/dev/block]. *)
Fixpoint generic_entries (lines : list string) : list descriptor :=
  match lines with
  | [] => []
  | line :: rest =>
      if PyStr.contains "mmcblk0p" line
      then (PyStr.strip line, PyStr.strip line, "Unknown")
             :: generic_entries rest
      else generic_entries rest
  end.

Definition fallback_pass (raw : completed) : list descriptor :=
  generic_entries (PyStr.split_on NEWLINE (stdout raw)).

Definition WARNING_GENERIC : string :=
  "Warning: Could not retrieve named partitions. Using generic mmcblk partitions.".

(** [list_partitions]: [named] is what [ls -l /dev/block/by-name] gives,
    [raw] what [ls /dev/block] gives when it is run.  The result carries
    the lines printed. *)
Definition list_partitions (named raw : completed)
  : list string * outcome (list descriptor) :=
  match named_pass named with
  | Returned [] => ([WARNING_GENERIC], Returned (fallback_pass raw))
  | Returned partitions => ([], Returned partitions)
  | Raised e => ([], Raised e)
  | Exited n => ([], Exited n)
  end.

(* ===================================================================== *)
(** ** Console: the lines typed by the user, the text printed             *)
(* ===================================================================== *)

(** [pending] holds the lines [input()] will return, in order; an
    exhausted list is end of input, on which [input()] raises [EOFError].
    [printed] collects prompts and printed lines. *)
Record console := { pending : list string; printed : list string }.

Definition say (out : list string) (line : string) : list string :=
  out ++ [line].

Definition string_of_nat (n : nat) : string :=
  NilEmpty.string_of_uint (Nat.to_uint n).

(* ===================================================================== *)
(** ** [choose_partition]                                                 *)
(* ===================================================================== *)

Definition FULL_DISK : string := "/dev/block/mmcblk0".
Definition PROMPT_CHOICE : string :=
  "Enter the number of the partition (or full disk): ".
Definition INVALID_CHOICE : string := "Invalid choice, try again.".

Fixpoint menu_lines (i : nat) (partitions : list descriptor) : list string :=
  match partitions with
  | [] => []
  | (part, label, category) :: rest =>
      (string_of_nat i ++ ". " ++ label ++ " (" ++ part ++ ") - "
         ++ category)%string
        :: menu_lines (S i) rest
  end.

Definition menu (partitions : list descriptor) : list string :=
  "Available partitions:"
    :: menu_lines 1 partitions
    ++ [(string_of_nat (List.length partitions + 1)
           ++ ". FULL DISK IMAGE")%string].

(** The [while True:] loop; it returns the accepted [choice]. *)
Fixpoint choice_loop (count : nat) (inputs : list string) (out : list string)
  : console * outcome string :=
  match inputs with
  | [] =>
      ({| pending := []; printed := say out PROMPT_CHOICE |}, Raised EOFError)
  | choice :: rest =>
      let out := say out PROMPT_CHOICE in
      if PyStr.isdigit choice then
        match PyStr.int choice with
        | None => ({| pending := rest; printed := out |}, Raised ValueError)
        | Some v =>
            if ((1 <=? v) && (v <=? Z.of_nat count + 1))%Z
            then ({| pending := rest; printed := out |}, Returned choice)
            else choice_loop count rest (say out INVALID_CHOICE)
        end
      else choice_loop count rest (say out INVALID_CHOICE)
  end.

(** The code after the loop. *)
Definition resolve_choice (partitions : list descriptor) (choice : string)
  : outcome string :=
  v <- of_option ValueError (PyStr.int choice) ;;
  if (v =? Z.of_nat (List.length partitions) + 1)%Z then Returned FULL_DISK
  else
    d <- of_option IndexError (nth_error partitions (Z.to_nat (v - 1))) ;;
    let partition_name := node_of d in
    if PyStr.contains "by-name" partition_name
    then Returned ("/dev/block/by-name/" ++ partition_name)%string
    else Returned ("/dev/block/" ++ partition_name)%string.

Definition choose_partition (partitions : list descriptor) (c : console)
  : console * outcome string :=
  let (c', r) :=
    choice_loop (List.length partitions) (pending c)
                (printed c ++ menu partitions) in
  (c', choice <- r ;; resolve_choice partitions choice).

(* ===================================================================== *)
(** ** [choose_save_location]                                             *)
(* ===================================================================== *)

(** The two functions of [os.path] the program calls.  [isdir] reads the
    local file system; [dirname] is the platform's path splitting. *)
Class OsPath := {
  isdir : string -> bool;
  dirname : string -> string
}.

Definition PROMPT_PATH : string :=
  "Enter the full path where the image should be saved (including filename): ".
Definition ERROR_DIRECTORY : string :=
  "Error: You entered a directory. Please specify a filename.".
Definition ERROR_PARENT : string :=
  "Invalid path. Make sure the parent directory exists.".

Section SaveLocation.
Context `{OsPath}.

Fixpoint path_loop (inputs : list string) (out : list string)
  : console * outcome string :=
  match inputs with
  | [] =>
      ({| pending := []; printed := say out PROMPT_PATH |}, Raised EOFError)
  | path :: rest =>
      let out := say out PROMPT_PATH in
      if isdir path then path_loop rest (say out ERROR_DIRECTORY)
      else if isdir (dirname path)
           then ({| pending := rest; printed := out |}, Returned path)
           else path_loop rest (say out ERROR_PARENT)
  end.

Definition choose_save_location (c : console) : console * outcome string :=
  path_loop (pending c) (printed c).
End SaveLocation.

(** [posixpath.dirname], and a file system given by the list of its
    directories: the instance used to run the selector on examples. *)
Module Posix.

Fixpoint upto_last_slash (p : string) : string :=
  match p with
  | EmptyString => EmptyString
  | String c p' =>
      if Ascii.eqb c SLASH || PyStr.contains "/" p'
      then String c (upto_last_slash p')
      else EmptyString
  end.

Fixpoint rstrip_slash (s : string) : string :=
  match s with
  | EmptyString => EmptyString
  | String c s' =>
      match rstrip_slash s' with
      | EmptyString =>
          if Ascii.eqb c SLASH then EmptyString else String c EmptyString
      | r => String c r
      end
  end.

Definition posix_dirname (p : string) : string :=
  let head := upto_last_slash p in
  if PyStr.forall_chars (fun c => Ascii.eqb c SLASH) head then head
  else rstrip_slash head.

Definition os_path (directories : list string) : OsPath :=
  {| isdir := fun p => existsb (String.eqb p) directories;
     dirname := posix_dirname |}.

End Posix.

(** A POSIX file system seen from a working directory: [directories]
    lists the existing directories by absolute path, a relative path is
    read from [cwd], and the empty path names nothing. *)
Module PosixCwd.





End PosixCwd.

(* ===================================================================== *)
(** ** [check_root], [get_partition_size], [detect_progress_tool]         *)
(* ===================================================================== *)

(** [probe] is what [adb shell "which su"] gives: a completed process, or
    the text of the exception [subprocess.run] raised. *)
Definition check_root (probe : completed + string) : list string * bool :=
  match probe with
  | inl result =>
      ([], (returncode result =? 0)%Z
           && negb (String.eqb (PyStr.strip (stdout result)) ""))
  | inr e => ([("Error while checking root status: " ++ e)%string], false)
  end.

(** [probe] is what [blockdev --getsize64] gives.  [Returned None] is the
    Python [None]. *)
Definition get_partition_size (probe : completed) : outcome (option Z) :=
  if (returncode probe =? 0)%Z && PyStr.isdigit (PyStr.strip (stdout probe))
  then
    v <- of_option ValueError (PyStr.int (PyStr.strip (stdout probe))) ;;
    Returned (Some v)
  else Returned None.

(** [system] is [platform.system()], [pv_found] whether [shutil.which("pv")]
    found the tool. *)
Definition detect_progress_tool (system : string) (pv_found : bool) : string :=
  if String.eqb system "Windows" then "tqdm"
  else if String.eqb system "Linux" then (if pv_found then "pv" else "tqdm")
  else "tqdm".

(* ===================================================================== *)
(** ** [pull_image]                                                       *)
(* ===================================================================== *)

(** The progress meter: [tqdm(total=...)], [update], [close].  [n] is the
    counter; [updates] lists the arguments of the [update] calls, oldest
    first. *)
Record tqdm := {
  total : option Z;
  n : Z;
  updates : list Z;
  closed : bool
}.

Definition tqdm_new (total : option Z) : tqdm :=
  {| total := total; n := 0; updates := []; closed := false |}.

Definition tqdm_update (p : tqdm) (k : Z) : tqdm :=
  {| total := total p; n := (n p + k)%Z; updates := updates p ++ [k];
     closed := closed p |}.

Definition tqdm_close (p : tqdm) : tqdm :=
  {| total := total p; n := n p; updates := updates p; closed := true |}.

(** [process.stdout]: a buffered reader over the pipe from the device-side
    [dd].  [incoming] lists what the pipe will deliver, one element per
    delivery, in order (the chunk boundaries); the pipe is at end of file
    once the list is exhausted.  [buffered] holds bytes already taken from
    the pipe and not yet returned. *)
Record reader := {
  buffered : list byte;
  incoming : list (list byte)
}.

Definition Popen (dd_output : list (list byte)) : reader :=
  {| buffered := []; incoming := dd_output |}.

(** Take deliveries from the pipe until [size] bytes are buffered or the
    pipe is at end of file. *)
Fixpoint fill (size : nat) (buf : list byte) (pipe : list (list byte))
  : list byte * list (list byte) :=
  if (size <=? List.length buf)%nat then (buf, pipe)
  else
    match pipe with
    | [] => (buf, [])
    | chunk :: rest => fill size (buf ++ chunk) rest
    end.

(** [process.stdout.read(size)]: exactly [size] bytes, fewer only at end of
    file. *)
Definition read (size : nat) (r : reader) : list byte * reader :=
  let (buf, pipe) := fill size (buffered r) (incoming r) in
  (firstn size buf, {| buffered := skipn size buf; incoming := pipe |}).

(** Every byte the reader can still return. *)
Definition unread (r : reader) : list byte :=
  buffered r ++ concat (incoming r).

Definition CHUNK : nat := 1024 * 1024.

(** The [while True:] loop of the two progress branches:
    [data = process.stdout.read(size)], [break] on an empty read, else
    [f.write(data)] and [progress.update(len(data))].  It terminates
    because a non-empty read leaves fewer unread bytes. *)
Equations? transfer_loop (size : nat) (r : reader) (f : list byte) (p : tqdm)
  : list byte * tqdm by wf (List.length (unread r)) lt :=
  transfer_loop size r f p with inspect (read size r) := {
    | exist _ ([], _) _ => (f, p)
    | exist _ (b :: data, r') _ =>
        transfer_loop size r' (f ++ b :: data)
          (tqdm_update p (Z.of_nat (List.length (b :: data)))) }.
Proof.
  assert (Hfill : forall pipe buf buf' pipe',
             fill size buf pipe = (buf', pipe') ->
             buf' ++ concat pipe' = buf ++ concat pipe).
  { induction pipe as [|chunk rest IH]; intros buf buf' pipe' Hf; simpl in Hf.
    - destruct (size <=? List.length buf)%nat; inversion Hf; reflexivity.
    - destruct (size <=? List.length buf)%nat.
      + inversion Hf; reflexivity.
      + apply IH in Hf. rewrite Hf. simpl. now rewrite <- app_assoc. }
  unfold read in e. destruct (fill size (buffered r) (incoming r)) as [buf pipe] eqn:Ef.
  apply Hfill in Ef. inversion e as [[Hd Hr]]. unfold unread. simpl.
  rewrite <- Ef, !length_app.
  assert (Hs := firstn_skipn size buf).
  apply (f_equal (@List.length byte)) in Hs. rewrite length_app, Hd in Hs.
  simpl in Hs. lia.
Qed.

(** What [pull_image] needs from the outside: the answer of the root
    probe, the answer of the size query, and the deliveries of the pipe
    carrying the output of [dd]. *)
Record device := {
  su_probe : completed + string;
  size_probe : completed;
  dd_output : list (list byte)
}.

(** What a finished [pull_image] leaves: the bytes of the file at
    [save_path], and the progress meter if one was created. *)
Record transfer := {
  saved : list byte;
  progress : option tqdm
}.

(** Python truth value of [partition_size]: [None] and [0] are false. *)
Definition truthy (partition_size : option Z) : bool :=
  match partition_size with
  | Some v => negb (v =? 0)%Z
  | None => false
  end.

(** The branch under [progress_tool == "pv" and partition_size]. *)
Definition pv_branch (partition_size : option Z) (dd : list (list byte))
  : transfer :=
  let f := [] in
  let process := Popen dd in
  let progress := tqdm_new partition_size in
  let (f, progress) := transfer_loop CHUNK process f progress in
  {| saved := f; progress := Some (tqdm_close progress) |}.

(** The branch under [progress_tool == "tqdm" and partition_size]. *)
Definition tqdm_branch (partition_size : option Z) (dd : list (list byte))
  : transfer :=
  let f := [] in
  let process := Popen dd in
  let progress := tqdm_new partition_size in
  let (f, progress) := transfer_loop CHUNK process f progress in
  {| saved := f; progress := Some (tqdm_close progress) |}.

(** The [else] branch: [subprocess.run(command, stdout=f)], the child
    writes straight into the file and no meter is created. *)
Definition default_branch (dd : list (list byte)) : transfer :=
  {| saved := concat dd; progress := None |}.

Definition NOT_ROOTED : string :=
  "Device is not rooted. Root permissions are required for this operation.".

(** [pull_image], for a destination that can be opened and written:
    [open(save_path, "wb")] and the writes are taken to succeed, so the
    statements below say how the call ends apart from a failure of the
    local file. *)
Definition pull_image (dev : device) (save_path progress_tool : string)
  : list string * outcome transfer :=
  let (out, rooted) := check_root (su_probe dev) in
  if negb rooted then (say out NOT_ROOTED, Exited 1)
  else
    match get_partition_size (size_probe dev) with
    | Raised e => (out, Raised e)
    | Exited status => (out, Exited status)
    | Returned partition_size =>
        let t :=
          if String.eqb progress_tool "pv" && truthy partition_size
          then pv_branch partition_size (dd_output dev)
          else if String.eqb progress_tool "tqdm" && truthy partition_size
          then tqdm_branch partition_size (dd_output dev)
          else default_branch (dd_output dev) in
        (out ++ [""; ("Image saved to " ++ save_path)%string], Returned t)
    end.

(* ===================================================================== *)
(** ** [check_adb], [get_device], [main]                                  *)
(* ===================================================================== *)

(** How a run of the program ends: normally, by [exit], or with an
    uncaught exception; [subprocess.run(..., check=True)] adds
    [CalledProcessError] to the exceptions of the other functions. *)
Inductive ending (A : Type) : Type :=
| Done (a : A)
| SystemExit (status : Z)
| Uncaught (e : exn)
| CalledProcessError (status : Z).
Arguments Done {A} a.
Arguments SystemExit {A} status.
Arguments Uncaught {A} e.
Arguments CalledProcessError {A} status.

Definition ending_of {A} (r : outcome A) : ending A :=
  match r with
  | Returned a => Done a
  | Raised e => Uncaught e
  | Exited status => SystemExit status
  end.

Definition ADB_MISSING : string :=
  "Error: ADB is not installed or not in PATH.".

(** [version] is what running [adb version] gives: [None] when the
    executable is not found ([FileNotFoundError]), else its return code,
    which [check=True] turns into an exception unless it is 0. *)
Definition check_adb (version : option Z) : list string * ending unit :=
  match version with
  | None => ([ADB_MISSING], SystemExit 1)
  | Some status =>
      if (status =? 0)%Z then ([], Done tt)
      else ([], CalledProcessError status)
  end.

Definition TAB : ascii := ascii_of_nat 9.
Definition NO_DEVICE : string :=
  "No device found. Make sure USB debugging is enabled.".

(** [listing] is what [adb devices] gives. *)
Definition get_device (listing : completed) : list string * outcome string :=
  let devices :=
    tl (PyStr.split_on NEWLINE (PyStr.strip (stdout listing))) in
  match devices with
  | [] => ([NO_DEVICE], Exited 1)
  | first :: _ =>
      if String.eqb first "" then ([NO_DEVICE], Exited 1)
      else ([], of_option IndexError
                  (nth_error (PyStr.split_on TAB first) 0))
  end.

(** Everything outside the program that one run of [main] meets.  The
    root probe runs twice, in [main] and in [pull_image]; the size query
    and the dump depend on the device path chosen. *)
Record world := {
  adb_version : option Z;
  adb_devices : completed;
  su_in_main : completed + string;
  su_in_pull : completed + string;
  by_name_listing : completed;
  block_listing : completed;
  blockdev : string -> completed;
  dd : string -> list (list byte);
  platform_system : string;
  pv_installed : bool;
  host_paths : OsPath;
  typed : list string
}.

Definition NOT_ROOTED_MAIN : string :=
  "Device is not rooted. Root permissions are required to pull partition images.".

(** What [pull_image] meets when called on [partition]. *)
Definition device_at (w : world) (partition : string) : device :=
  {| su_probe := su_in_pull w;
     size_probe := blockdev w partition;
     dd_output := dd w partition |}.

(** What a completed run leaves: the device path read, the local path
    written, and the transfer. *)
Record pulled := {
  source : string;
  destination : string;
  image : transfer
}.

Definition main (w : world) : console * ending pulled :=
  let stop {A} (out : list string) (e : ending A) :=
    ({| pending := typed w; printed := out |}, e) in
  match check_adb (adb_version w) with
  | (out0, SystemExit status) => stop out0 (SystemExit status)
  | (out0, Uncaught e) => stop out0 (Uncaught e)
  | (out0, CalledProcessError status) => stop out0 (CalledProcessError status)
  | (out0, Done _) =>
      match get_device (adb_devices w) with
      | (out1, Exited status) => stop (out0 ++ out1) (SystemExit status)
      | (out1, Raised e) => stop (out0 ++ out1) (Uncaught e)
      | (out1, Returned _) =>
          let (out2, rooted) := check_root (su_in_main w) in
          if negb rooted
          then stop (say (out0 ++ out1 ++ out2) NOT_ROOTED_MAIN)
                    (SystemExit 1)
          else
            match list_partitions (by_name_listing w) (block_listing w) with
            | (out3, Exited status) =>
                stop (out0 ++ out1 ++ out2 ++ out3) (SystemExit status)
            | (out3, Raised e) =>
                stop (out0 ++ out1 ++ out2 ++ out3) (Uncaught e)
            | (out3, Returned partitions) =>
                match choose_partition partitions
                        {| pending := typed w;
                           printed := out0 ++ out1 ++ out2 ++ out3 |} with
                | (c, Exited status) => (c, SystemExit status)
                | (c, Raised e) => (c, Uncaught e)
                | (c, Returned partition) =>
                    match @choose_save_location (host_paths w) c with
                    | (c', Exited status) => (c', SystemExit status)
                    | (c', Raised e) => (c', Uncaught e)
                    | (c', Returned save_path) =>
                        let progress_tool :=
                          detect_progress_tool (platform_system w)
                                               (pv_installed w) in
                        let (out4, r) :=
                          pull_image (device_at w partition) save_path
                                     progress_tool in
                        ({| pending := pending c';
                            printed := printed c' ++ out4 |},
                         ending_of
                           (t <- r ;;
                            Returned {| source := partition;
                                        destination := save_path;
                                        image := t |}))
                    end
                end
            end
      end
  end.

(** The lengths of the pieces when [count] bytes are cut into pieces of
    [size] bytes, the last one possibly shorter; [fuel] bounds the number
    of pieces. *)
Fixpoint piece_lengths (fuel size count : nat) : list nat :=
  match fuel with
  | O => []
  | S fuel' =>
      if (count =? 0)%nat then []
      else Nat.min size count
             :: piece_lengths fuel' size (count - Nat.min size count)
  end.

(* ===================================================================== *)
(** ** Predicates and sample inputs used in the statements                *)
(* ===================================================================== *)

(** The test [if "->" in line]. *)
Definition is_symlink_line (line : string) : bool := PyStr.contains "->" line.

(** The per-line parse returns [d] on [line]. *)
Definition parses_to (line : string) (d : descriptor) : Prop :=
  parse_symlink_line line = Returned d.

(** An output of [ls -l /dev/block/by-name]. *)
Definition sample_named_listing : completed :=
  {| returncode := 0;
     stdout := "total 0
lrwxrwxrwx 1 root root 21 1970-01-01 00:00 boot -> /dev/block/mmcblk0p12
lrwxrwxrwx 1 root root 21 1970-01-01 00:00 vbmeta_system -> /dev/block/mmcblk0p3
" |}.

(** An output of [ls /dev/block]. *)
Definition sample_raw_listing : completed :=
  {| returncode := 0;
     stdout := "loop0
mmcblk0
mmcblk0p1
mmcblk0p2
" |}.

(** The character [sep] does not occur in [s]. *)
Definition lacks (sep : ascii) (s : string) : Prop :=
  PyStr.contains (String sep EmptyString) s = false.

(** The string made of the single character U+00B2, superscript two. *)
Definition SUPERSCRIPT_TWO : string := String (ascii_of_nat 178) EmptyString.

(** A POSIX file system whose directories are [/] and [/tmp]. *)
Definition sample_os_path : OsPath := Posix.os_path ["/"; "/tmp"].

(** The answer of [which su] on a rooted device. *)
Definition ROOTED : completed + string :=
  inl {| returncode := 0; stdout := "/system/bin/su
" |}.

(** A rooted device whose partition of five bytes arrives in four
    deliveries, one of them empty. *)
Definition sample_device : device :=
  {| su_probe := ROOTED;
     size_probe := {| returncode := 0; stdout := "5
" |};
     dd_output := [[x7f; x45]; [x4c]; []; [x46; x00]] |}.

(** The same device when the size query fails. *)
Definition sample_unsized_device : device :=
  {| su_probe := ROOTED;
     size_probe := {| returncode := 1; stdout := "blockdev: not found
" |};
     dd_output := [[x7f; x45]; [x4c]; []; [x46; x00]] |}.

(** A character that is not white space. *)
Definition nonspace (c : ascii) : bool := negb (PyStr.isspace c).

(** A non-empty string without white space: what [split()] produces. *)
Definition is_token (t : string) : Prop :=
  t <> EmptyString /\ PyStr.forall_chars nonspace t = true.

(** A marker line with fewer than three tokens. *)
Definition short_marker_line (line : string) : Prop :=
  List.length (PyStr.split_ws line) < 3.

(** The interpreter's limit on the number of digits [int] converts
    ([sys.get_int_max_str_digits()], 4300 by default): a longer string of
    digits makes [int] raise [ValueError]. *)
Definition MAX_STR_DIGITS : nat := 4300.

Definition within_digit_limit (s : string) : bool :=
  (String.length s <=? MAX_STR_DIGITS)%nat.

(** The entries the selector's loop answers with the error line: those
    [isdigit] refuses, and the decimal numbers, of a length [int]
    converts, outside [1 .. count + 1]. *)
Definition rejects (count : nat) (entry : string) : bool :=
  negb (PyStr.isdigit entry)
  || (within_digit_limit entry
      && match PyStr.int entry with
         | Some v => negb ((1 <=? v) && (v <=? Z.of_nat count + 1))%Z
         | None => false
         end).

(** What the selector prints for the entries in [bad]: a prompt and the
    error line for each. *)
Definition reprompts (bad : list string) : list string :=
  concat (map (fun _ => [PROMPT_CHOICE; INVALID_CHOICE]) bad).

(** The device path the selector builds for a descriptor. *)
Definition device_path (d : descriptor) : string :=
  if PyStr.contains "by-name" (node_of d)
  then ("/dev/block/by-name/" ++ node_of d)%string
  else ("/dev/block/" ++ node_of d)%string.

(** The entries the destination selector answers with an error line. *)
Definition refuses `{OsPath} (path : string) : bool :=
  isdir path || negb (isdir (dirname path)).

(** What the destination selector prints for the entries in [bad]. *)
Definition path_reprompts `{OsPath} (bad : list string) : list string :=
  concat (map (fun path =>
                 [PROMPT_PATH;
                  if isdir path then ERROR_DIRECTORY else ERROR_PARENT])
              bad).

(** A run in which everything is in place: the bridge answers, one
    device is attached and rooted, the by-name listing is
    [sample_named_listing], every partition holds the five bytes of
    [sample_device], and the user types a wrong entry, the number of the
    second partition, a directory and then a file path. *)
Definition sample_world : world :=
  {| adb_version := Some 0%Z;
     adb_devices :=
       {| returncode := 0;
          stdout := "List of devices attached
R58M123ABC	device

" |};
     su_in_main := ROOTED;
     su_in_pull := ROOTED;
     by_name_listing := sample_named_listing;
     block_listing := sample_raw_listing;
     blockdev := fun _ => size_probe sample_device;
     dd := fun _ => dd_output sample_device;
     platform_system := "Linux";
     pv_installed := false;
     host_paths := sample_os_path;
     typed := ["boot"; "2"; "/tmp"; "/tmp/vbmeta.img"] |}.

(* ===================================================================== *)
(** * Properties                                                          *)
(* ===================================================================== *)

(** ** Strings *)

Section StringFacts.

Lemma append_assoc (a b c : string) :
  ((a ++ b) ++ c = a ++ (b ++ c))%string.
Proof. induction a as [|x a IH]; simpl; [reflexivity | now rewrite IH]. Qed.

Lemma prefix_iff (sub s : string) :
  prefix sub s = true <-> exists post, s = (sub ++ post)%string.
Proof.
  revert sub. induction s as [|b s IH]; intros [|a sub]; simpl.
  - split; [exists EmptyString; reflexivity | reflexivity].
  - split; [discriminate | intros [post Hp]; discriminate].
  - split; [exists (String b s); reflexivity | reflexivity].
  - destruct (ascii_dec a b) as [->|Hab].
    + rewrite IH. split; intros [post Hp]; exists post.
      * now rewrite Hp.
      * now inversion Hp.
    + split; [discriminate | intros [post Hp]; simpl in Hp; congruence].
Qed.

Lemma contains_nil (sub : string) :
  PyStr.contains sub EmptyString = prefix sub EmptyString.
Proof. unfold PyStr.contains. apply orb_false_r. Qed.

Lemma contains_cons (sub : string) (c : ascii) (s : string) :
  PyStr.contains sub (String c s)
  = prefix sub (String c s) || PyStr.contains sub s.
Proof. reflexivity. Qed.

(** [sub in s] holds exactly when [s] is [sub] with characters around it. *)
Lemma contains_iff (sub s : string) :
  PyStr.contains sub s = true
  <-> exists pre post, s = (pre ++ sub ++ post)%string.
Proof.
  induction s as [|c s IH].
  - rewrite contains_nil, prefix_iff. split.
    + intros [post Hp]. exists EmptyString, post. exact Hp.
    + intros [[|x pre] [post Hp]]; [exists post; exact Hp | discriminate].
  - rewrite contains_cons, orb_true_iff, prefix_iff, IH. split.
    + intros [[post Hp] | [pre [post Hp]]].
      * exists EmptyString, post. exact Hp.
      * exists (String c pre), post. simpl. now rewrite Hp.
    + intros [[|x pre] [post Hp]].
      * left. exists post. exact Hp.
      * right. exists pre, post. now inversion Hp.
Qed.

Lemma lower_app (a b : string) :
  PyStr.lower (a ++ b) = (PyStr.lower a ++ PyStr.lower b)%string.
Proof. induction a as [|x a IH]; simpl; [reflexivity | now rewrite IH]. Qed.

End StringFacts.

(** ** The classifier *)

Lemma first_match_skips earlier key category later lowered :
  Forall (fun kc => PyStr.contains (fst kc) lowered = false) earlier ->
  PyStr.contains key lowered = true ->
  first_match (earlier ++ (key, category) :: later) lowered = category.
Proof.
  intros Hearly Hkey. induction Hearly as [|[k c] rest Hk _ IH]; simpl.
  - now rewrite Hkey.
  - simpl in Hk. now rewrite Hk.
Qed.

(** C2, as the code has it: a label made of any characters around a
    fragment which, lower-cased, is a key of the table, gets that key's
    category, provided no key earlier in the table also occurs in the
    lower-cased label (the first key found wins). *)
Theorem classifier_first_fragment_wins :
  forall earlier key category later pre frag post,
    categories = earlier ++ (key, category) :: later ->
    PyStr.lower frag = key ->
    Forall (fun kc =>
              PyStr.contains (fst kc)
                (PyStr.lower (pre ++ frag ++ post)) = false) earlier ->
    get_partition_category (pre ++ frag ++ post)%string = category.
Proof.
  intros earlier key category later pre frag post Hcat Hfrag Hearly.
  unfold get_partition_category. rewrite Hcat.
  apply first_match_skips; [exact Hearly|].
  apply contains_iff. exists (PyStr.lower pre), (PyStr.lower post).
  now rewrite !lower_app, Hfrag.
Qed.

Lemma classifier_first_fragment_wins_witness :
  get_partition_category ("" ++ "vbMETA" ++ "_b")%string
  = "Verified Boot Metadata".
Proof.
  apply (classifier_first_fragment_wins
           (firstn 10 categories) "vbmeta" "Verified Boot Metadata" []
           "" "vbMETA" "_b").
  - reflexivity.
  - reflexivity.
  - repeat constructor.
Defined.

(** C2 as stated fails: ["vbmeta_system"] contains the known fragment
    ["vbmeta"], yet the classifier answers with the category of
    ["system"], which comes first in the table. *)
Lemma classifier_later_fragment_shadowed :
  In ("vbmeta", "Verified Boot Metadata") categories
  /\ PyStr.contains "vbmeta" (PyStr.lower "vbmeta_system") = true
  /\ get_partition_category "vbmeta_system" = "Android System"
  /\ get_partition_category "vbmeta_system" <> "Verified Boot Metadata".
Proof.
  split; [simpl; tauto|]. split; [reflexivity|].
  split; [reflexivity | discriminate].
Qed.

(** ** The enumerator *)

Section Indexing.
Context {A : Type}.

Lemma index_from_end_nth (l : list A) (k : nat) :
  1 <= k <= List.length l ->
  PyStr.index_from_end l k = nth_error l (List.length l - k).
Proof.
  intros [H1 H2]. unfold PyStr.index_from_end.
  apply Nat.leb_le in H1, H2. now rewrite H1, H2.
Qed.

Lemma index_from_end_in_bounds (l : list A) (k : nat) :
  1 <= k <= List.length l -> exists x, PyStr.index_from_end l k = Some x.
Proof.
  intros Hk. rewrite index_from_end_nth by exact Hk.
  destruct (nth_error l (List.length l - k)) as [x|] eqn:E; [now exists x|].
  apply nth_error_None in E. lia.
Qed.

Lemma index_from_end_out_of_bounds (l : list A) (k : nat) :
  List.length l < k -> PyStr.index_from_end l k = None.
Proof.
  intros Hk. unfold PyStr.index_from_end.
  replace (k <=? List.length l)%nat with false
    by (symmetry; apply Nat.leb_gt; exact Hk).
  now rewrite andb_false_r.
Qed.

Lemma index_from_end_last (l : list A) (d : A) :
  l <> [] -> PyStr.index_from_end l 1 = Some (last l d).
Proof.
  intros Hl. rewrite index_from_end_nth
    by (destruct l; [contradiction | simpl; lia]).
  induction l as [|x [|y l] IH]; [contradiction | reflexivity |].
  change (last (x :: y :: l) d) with (last (y :: l) d).
  rewrite <- IH by discriminate. simpl. now rewrite Nat.sub_0_r.
Qed.
End Indexing.

Lemma split_on_aux_nonempty sep s cur : PyStr.split_on_aux sep cur s <> [].
Proof.
  revert cur. induction s as [|c s IH]; intros cur; simpl; [discriminate|].
  destruct (Ascii.eqb c sep); [discriminate | apply IH].
Qed.

(** A line with at least three tokens parses, to the third token from the
    end and the last path component of the last token. *)
Lemma parse_symlink_line_in_bounds (line : string) :
  3 <= List.length (PyStr.split_ws line) ->
  exists label target,
    nth_error (PyStr.split_ws line) (List.length (PyStr.split_ws line) - 3)
    = Some label
    /\ nth_error (PyStr.split_ws line) (List.length (PyStr.split_ws line) - 1)
       = Some target
    /\ parse_symlink_line line
       = Returned (last (PyStr.split_on SLASH target) EmptyString, label,
                   get_partition_category label).
Proof.
  intros Hlen. unfold parse_symlink_line.
  destruct (index_from_end_in_bounds (PyStr.split_ws line) 3) as [label Hl];
    [lia|].
  destruct (index_from_end_in_bounds (PyStr.split_ws line) 1) as [target Ht];
    [lia|].
  exists label, target. rewrite Hl, Ht. simpl.
  rewrite (index_from_end_last _ EmptyString)
    by apply split_on_aux_nonempty.
  rewrite <- index_from_end_nth by lia.
  rewrite <- index_from_end_nth by lia. auto.
Qed.

Lemma parse_symlink_line_short (line : string) :
  List.length (PyStr.split_ws line) < 3 ->
  parse_symlink_line line = Raised IndexError.
Proof.
  intros Hlen. unfold parse_symlink_line.
  now rewrite index_from_end_out_of_bounds by exact Hlen.
Qed.

(** Tokens: a token being read is always emitted, and a string with a
    character that is not white space has a token. *)
Lemma split_ws_aux_open (s : string) :
  forall t, PyStr.split_ws_aux (Some t) s <> [].
Proof.
  induction s as [|c s IH]; intros t; simpl; [discriminate|].
  destruct (PyStr.isspace c); [discriminate | apply IH].
Qed.

Lemma split_ws_nonblank (s : string) :
  PyStr.forall_chars PyStr.isspace s = false -> PyStr.split_ws s <> [].
Proof.
  unfold PyStr.split_ws. induction s as [|c s IH]; simpl; [discriminate|].
  destruct (PyStr.isspace c); simpl; [exact IH | intros _].
  apply split_ws_aux_open.
Qed.

Lemma marker_line_nonblank (line : string) :
  PyStr.contains "->" line = true ->
  PyStr.forall_chars PyStr.isspace line = false.
Proof.
  intros Hm. apply contains_iff in Hm as (pre & post & ->).
  remember ("->" ++ post)%string as tail eqn:Htail.
  induction pre as [|c pre IH]; [subst tail; reflexivity|].
  cbn [append PyStr.forall_chars]. rewrite IH. apply andb_false_r.
Qed.

(** C9: on a line holding the marker ["->"], having at least three tokens
    is what makes the per-line parse defined: with three or more, label
    and node are read in bounds (third token from the end, last path
    component of the last token); with fewer, the indexing raises
    [IndexError].  Such a line always has a token, so it is the label's
    index that goes out of bounds. *)
Theorem symlink_line_parse_defined_iff_three_tokens :
  forall line,
    PyStr.contains "->" line = true ->
    (3 <= List.length (PyStr.split_ws line) ->
     exists label target,
       nth_error (PyStr.split_ws line) (List.length (PyStr.split_ws line) - 3)
       = Some label
       /\ nth_error (PyStr.split_ws line)
            (List.length (PyStr.split_ws line) - 1) = Some target
       /\ parse_symlink_line line
          = Returned (last (PyStr.split_on SLASH target) EmptyString, label,
                      get_partition_category label))
    /\ (List.length (PyStr.split_ws line) < 3 ->
        parse_symlink_line line = Raised IndexError)
    /\ 1 <= List.length (PyStr.split_ws line).
Proof.
  intros line Hm. split; [|split].
  - apply parse_symlink_line_in_bounds.
  - apply parse_symlink_line_short.
  - apply marker_line_nonblank, split_ws_nonblank in Hm.
    destruct (PyStr.split_ws line); [contradiction | simpl; lia].
Qed.

Lemma symlink_line_parse_defined_iff_three_tokens_witness :
  (exists label target,
      nth_error (PyStr.split_ws "boot -> /dev/block/mmcblk0p7") (3 - 3)
      = Some label
      /\ nth_error (PyStr.split_ws "boot -> /dev/block/mmcblk0p7") (3 - 1)
         = Some target
      /\ parse_symlink_line "boot -> /dev/block/mmcblk0p7"
         = Returned (last (PyStr.split_on SLASH target) EmptyString, label,
                     get_partition_category label))
  /\ parse_symlink_line "boot->x" = Raised IndexError.
Proof.
  split.
  - apply (proj1 (symlink_line_parse_defined_iff_three_tokens
                    "boot -> /dev/block/mmcblk0p7" eq_refl)).
    vm_compute. lia.
  - apply (proj1 (proj2 (symlink_line_parse_defined_iff_three_tokens
                           "boot->x" eq_refl))).
    vm_compute. lia.
Defined.

(** The loop appends one descriptor per marker line, in order, as long as
    each of them parses. *)
Lemma named_loop_complete (lines : list string) :
  forall acc,
    Forall (fun l => 3 <= List.length (PyStr.split_ws l))
           (filter is_symlink_line lines) ->
    exists ds,
      named_loop lines acc = Returned (acc ++ ds)
      /\ Forall2 parses_to (filter is_symlink_line lines) ds.
Proof.
  induction lines as [|line rest IH]; intros acc Hall; simpl.
  - exists []. rewrite app_nil_r. split; [reflexivity | constructor].
  - simpl in Hall. unfold is_symlink_line in *.
    destruct (PyStr.contains "->" line) eqn:Hm.
    + inversion Hall as [|? ? Hline Hrest]; subst.
      destruct (parse_symlink_line_in_bounds line Hline)
        as (label & target & _ & _ & Hp).
      rewrite Hp. cbn [bind].
      destruct (IH (acc ++ [(last (PyStr.split_on SLASH target) EmptyString,
                             label, get_partition_category label)]) Hrest)
        as (ds & Hloop & Hds).
      rewrite <- app_assoc in Hloop.
      eexists (_ :: ds). split; [exact Hloop|].
      constructor; [exact Hp | exact Hds].
    + apply IH. exact Hall.
Qed.

(** Whatever the loop returns is the accumulator followed by one parsed
    descriptor per marker line, in order. *)
Lemma named_loop_sound (lines : list string) :
  forall acc res,
    named_loop lines acc = Returned res ->
    exists ds,
      res = acc ++ ds /\ Forall2 parses_to (filter is_symlink_line lines) ds.
Proof.
  induction lines as [|line rest IH]; intros acc res Hres; simpl in *.
  - exists []. rewrite app_nil_r. split; [congruence | constructor].
  - unfold is_symlink_line in *.
    destruct (PyStr.contains "->" line) eqn:Hm.
    + destruct (parse_symlink_line line) as [d| |] eqn:Hp;
        simpl in Hres; try discriminate.
      destruct (IH _ _ Hres) as (ds & -> & Hds).
      exists (d :: ds). rewrite <- app_assoc. split; [reflexivity|].
      constructor; [exact Hp | exact Hds].
    + apply IH. exact Hres.
Qed.

Lemma generic_entries_map_filter (lines : list string) :
  generic_entries lines
  = map (fun line => (PyStr.strip line, PyStr.strip line, "Unknown"))
        (filter (PyStr.contains "mmcblk0p") lines).
Proof.
  induction lines as [|line rest IH]; simpl; [reflexivity|].
  destruct (PyStr.contains "mmcblk0p" line); simpl; now rewrite IH.
Qed.

(** C3, as the code has it: when the listing command succeeded, every
    marker line has at least three tokens and there is at least one marker
    line, the enumerator returns one descriptor per marker line, each
    parsed from its line, in the order of the lines. *)
Theorem named_listing_yields_one_descriptor_per_symlink_line :
  forall named raw,
    returncode named = 0%Z ->
    Forall (fun l => 3 <= List.length (PyStr.split_ws l))
           (filter is_symlink_line (PyStr.split_on NEWLINE (stdout named))) ->
    filter is_symlink_line (PyStr.split_on NEWLINE (stdout named)) <> [] ->
    exists ds,
      list_partitions named raw = ([], Returned ds)
      /\ List.length ds
         = List.length
             (filter is_symlink_line (PyStr.split_on NEWLINE (stdout named)))
      /\ Forall2 parses_to
           (filter is_symlink_line (PyStr.split_on NEWLINE (stdout named)))
           ds.
Proof.
  intros named raw Hrc Htok Hsome.
  destruct (named_loop_complete _ [] Htok) as (ds & Hloop & Hds).
  exists ds. unfold list_partitions, named_pass.
  rewrite Hrc, Hloop. simpl.
  destruct ds as [|d ds].
  - inversion Hds as [Hnil|]. now rewrite <- Hnil in Hsome.
  - split; [reflexivity|]. split; [|exact Hds].
    symmetry. exact (Forall2_length Hds).
Qed.

Lemma named_listing_yields_one_descriptor_per_symlink_line_witness :
  exists ds,
    list_partitions sample_named_listing sample_raw_listing
    = ([], Returned ds)
    /\ List.length ds
       = List.length
           (filter is_symlink_line
                   (PyStr.split_on NEWLINE (stdout sample_named_listing)))
    /\ Forall2 parses_to
         (filter is_symlink_line
                 (PyStr.split_on NEWLINE (stdout sample_named_listing)))
         ds.
Proof.
  apply (named_listing_yields_one_descriptor_per_symlink_line
           sample_named_listing sample_raw_listing).
  - reflexivity.
  - vm_compute. repeat constructor.
  - vm_compute. discriminate.
Defined.

(** C3 as stated fails: a listing with no marker line (N = 0) and one
    other line (M = 1) does not give zero descriptors when the raw block
    directory holds generic entries; the fallback's entries are returned. *)
Lemma named_listing_without_symlinks_returns_fallback :
  let named := {| returncode := 0; stdout := "total 0" |} in
  List.length (filter is_symlink_line
                 (PyStr.split_on NEWLINE (stdout named))) = 0
  /\ List.length (filter (fun l => negb (is_symlink_line l))
                   (PyStr.split_on NEWLINE (stdout named))) = 1
  /\ list_partitions named sample_raw_listing
     = ([WARNING_GENERIC],
        Returned [("mmcblk0p1", "mmcblk0p1", "Unknown");
                  ("mmcblk0p2", "mmcblk0p2", "Unknown")]).
Proof. vm_compute. auto. Qed.

(** C7: when the named listing yields no descriptor, the enumerator
    returns the lines of the raw listing that contain ["mmcblk0p"], in
    listing order, each stripped and used as both node name and label,
    with category ["Unknown"]. *)
Theorem fallback_returns_generic_entries :
  forall named raw,
    named_pass named = Returned [] ->
    list_partitions named raw
    = ([WARNING_GENERIC],
       Returned
         (map (fun line => (PyStr.strip line, PyStr.strip line, "Unknown"))
              (filter (PyStr.contains "mmcblk0p")
                      (PyStr.split_on NEWLINE (stdout raw))))).
Proof.
  intros named raw Hnone. unfold list_partitions, fallback_pass.
  now rewrite Hnone, generic_entries_map_filter.
Qed.

Lemma fallback_returns_generic_entries_witness :
  list_partitions {| returncode := 1; stdout := "" |} sample_raw_listing
  = ([WARNING_GENERIC],
     Returned
       (map (fun line => (PyStr.strip line, PyStr.strip line, "Unknown"))
            (filter (PyStr.contains "mmcblk0p")
                    (PyStr.split_on NEWLINE (stdout sample_raw_listing))))).
Proof.
  apply (fallback_returns_generic_entries
           {| returncode := 1; stdout := "" |} sample_raw_listing).
  reflexivity.
Defined.

(** ** Path components hold no separator *)

Lemma contains_char_cons sep c s :
  PyStr.contains (String sep EmptyString) (String c s)
  = Ascii.eqb sep c || PyStr.contains (String sep EmptyString) s.
Proof.
  rewrite contains_cons. f_equal. simpl.
  destruct (ascii_dec sep c) as [->|Hne].
  - rewrite Ascii.eqb_refl. now destruct s.
  - symmetry. now apply Ascii.eqb_neq.
Qed.

Lemma lacks_snoc sep cur c :
  lacks sep cur -> Ascii.eqb c sep = false ->
  lacks sep (cur ++ String c EmptyString)%string.
Proof.
  unfold lacks. intros Hcur Hc. induction cur as [|x cur IH]; cbn [append].
  - rewrite contains_char_cons, Ascii.eqb_sym, Hc. reflexivity.
  - rewrite contains_char_cons in Hcur |- *.
    apply orb_false_iff in Hcur as [Hx Hcur].
    now rewrite Hx, IH.
Qed.

Lemma split_on_aux_lacks sep s :
  forall cur, lacks sep cur -> Forall (lacks sep) (PyStr.split_on_aux sep cur s).
Proof.
  induction s as [|c s IH]; intros cur Hcur; simpl.
  - now constructor.
  - destruct (Ascii.eqb c sep) eqn:Hc.
    + constructor; [exact Hcur | apply IH; reflexivity].
    + apply IH. now apply lacks_snoc.
Qed.

Lemma Forall_last {A} (P : A -> Prop) (l : list A) (d : A) :
  Forall P l -> P d -> P (last l d).
Proof.
  intros Hl Hd. induction Hl as [|x [|y l] Hx Hl IH]; simpl; auto.
Qed.

Lemma last_field_lacks sep s :
  lacks sep (last (PyStr.split_on sep s) EmptyString).
Proof.
  apply Forall_last; [|reflexivity].
  apply split_on_aux_lacks. reflexivity.
Qed.


Lemma Forall2_In_right {A B} (R : A -> B -> Prop) l1 l2 b :
  Forall2 R l1 l2 -> In b l2 -> exists a, In a l1 /\ R a b.
Proof.
  induction 1 as [|x y l1 l2 Hxy _ IH]; intros Hin; [contradiction|].
  destruct Hin as [->|Hin].
  - exists x. split; [now left | exact Hxy].
  - destruct (IH Hin) as (a & Ha & HR). exists a. split; [now right | exact HR].
Qed.


(** ** The partition selector *)

Lemma forall_chars_impl (p q : ascii -> bool) (s : string) :
  (forall c, p c = true -> q c = true) ->
  PyStr.forall_chars p s = true -> PyStr.forall_chars q s = true.
Proof.
  intros Hpq. induction s as [|c s IH]; simpl; [reflexivity|].
  intros H. apply andb_true_iff in H as [Hc Hs].
  now rewrite (Hpq _ Hc), IH.
Qed.

(** A string [int] converts is one [isdigit] accepts. *)
Lemma int_some_isdigit (s : string) (v : Z) :
  PyStr.int s = Some v -> PyStr.isdigit s = true.
Proof.
  unfold PyStr.int, PyStr.isdigit. destruct s as [|c s]; [discriminate|].
  destruct (PyStr.forall_chars PyStr.char_isdecimal (String c s)) eqn:Hd;
    [|discriminate].
  intros _. revert Hd. apply forall_chars_impl.
  intros x Hx. unfold PyStr.char_isdigit, PyStr.char_isdecimal in *.
  now rewrite Hx.
Qed.

Section ChoiceLoop.
Variable count : nat.
Variables (choice : string) (rest out : list string).

(** An entry [isdigit] refuses is answered with the error line and the
    next entry is read. *)
Lemma choice_loop_reprompts_nondigit :
  PyStr.isdigit choice = false ->
  choice_loop count (choice :: rest) out
  = choice_loop count rest (say (say out PROMPT_CHOICE) INVALID_CHOICE).
Proof. intros Hd. simpl. now rewrite Hd. Qed.

(** A decimal entry outside [1 .. count + 1] likewise. *)
Lemma choice_loop_reprompts_out_of_range (v : Z) :
  PyStr.int choice = Some v ->
  (v < 1 \/ Z.of_nat count + 1 < v)%Z ->
  choice_loop count (choice :: rest) out
  = choice_loop count rest (say (say out PROMPT_CHOICE) INVALID_CHOICE).
Proof.
  intros Hv Hrange. simpl.
  rewrite (int_some_isdigit _ _ Hv), Hv.
  replace ((1 <=? v) && (v <=? Z.of_nat count + 1))%Z with false;
    [reflexivity|].
  symmetry. apply andb_false_iff.
  destruct Hrange; [left; apply Z.leb_gt | right; apply Z.leb_gt]; lia.
Qed.

(** A decimal entry inside the range ends the loop. *)
Lemma choice_loop_accepts_in_range (v : Z) :
  PyStr.int choice = Some v ->
  (1 <= v <= Z.of_nat count + 1)%Z ->
  choice_loop count (choice :: rest) out
  = ({| pending := rest; printed := say out PROMPT_CHOICE |},
     Returned choice).
Proof.
  intros Hv [Hlo Hhi]. simpl.
  rewrite (int_some_isdigit _ _ Hv), Hv.
  apply Z.leb_le in Hlo, Hhi. now rewrite Hlo, Hhi.
Qed.

(** An entry [isdigit] accepts and [int] refuses leaves the loop, and
    the program, with [ValueError]. *)
Lemma choice_loop_raises_on_nondecimal_digit :
  PyStr.isdigit choice = true ->
  PyStr.int choice = None ->
  choice_loop count (choice :: rest) out
  = ({| pending := rest; printed := say out PROMPT_CHOICE |},
     Raised ValueError).
Proof. intros Hd Hv. simpl. now rewrite Hd, Hv. Qed.
End ChoiceLoop.

(** C5, where the code departs from it: the entry made of the single
    character superscript two is not a decimal number, yet the selector
    does not reprompt: [isdigit] accepts it, [int] raises [ValueError] and
    the call ends there, whatever entries follow. *)
Theorem selector_raises_on_superscript_digit :
  forall partitions rest out,
    choose_partition partitions
      {| pending := SUPERSCRIPT_TWO :: rest; printed := out |}
    = ({| pending := rest;
          printed := say (out ++ menu partitions) PROMPT_CHOICE |},
       Raised ValueError).
Proof.
  intros partitions rest out. unfold choose_partition. cbn [pending printed].
  rewrite choice_loop_raises_on_nondecimal_digit; reflexivity.
Qed.

(** What the selector does on the entries it handles: it reprompts on an
    entry that is not made of digits and on a decimal entry out of range,
    and resolves the entry [count + 1] to the full-disk path. *)
Lemma selector_on_plain_entries :
  forall partitions choice rest out,
    (PyStr.isdigit choice = false ->
     choose_partition partitions {| pending := choice :: rest; printed := out |}
     = (let (c, r) :=
          choice_loop (List.length partitions) rest
            (say (say (out ++ menu partitions) PROMPT_CHOICE) INVALID_CHOICE)
        in (c, x <- r ;; resolve_choice partitions x)))
    /\ (forall v,
           PyStr.int choice = Some v ->
           (v < 1 \/ Z.of_nat (List.length partitions) + 1 < v)%Z ->
           choose_partition partitions
             {| pending := choice :: rest; printed := out |}
           = (let (c, r) :=
                choice_loop (List.length partitions) rest
                  (say (say (out ++ menu partitions) PROMPT_CHOICE)
                       INVALID_CHOICE)
              in (c, x <- r ;; resolve_choice partitions x)))
    /\ (PyStr.int choice = Some (Z.of_nat (List.length partitions) + 1)%Z ->
        choose_partition partitions
          {| pending := choice :: rest; printed := out |}
        = ({| pending := rest;
              printed := say (out ++ menu partitions) PROMPT_CHOICE |},
           Returned FULL_DISK)).
Proof.
  intros partitions choice rest out. unfold choose_partition.
  cbn [pending printed]. repeat split.
  - intros Hd. now rewrite choice_loop_reprompts_nondigit.
  - intros v Hv Hr. now rewrite (choice_loop_reprompts_out_of_range _ _ _ _ v).
  - intros Hv.
    rewrite (choice_loop_accepts_in_range _ _ _ _ _ Hv) by lia.
    cbn [bind]. unfold resolve_choice. rewrite Hv. cbn [of_option bind].
    now rewrite Z.eqb_refl.
Qed.




(** ** The destination selector *)



(** How the criterion reads on POSIX paths: a bare file name has an empty
    [dirname], which is no directory, so it is answered with the
    parent-directory error. *)
Lemma bare_file_name_is_reprompted :
  @choose_save_location sample_os_path
    {| pending := ["boot.img"; "/tmp/boot.img"]; printed := [] |}
  = ({| pending := [];
        printed := [PROMPT_PATH; ERROR_PARENT; PROMPT_PATH] |},
     Returned "/tmp/boot.img").
Proof. reflexivity. Qed.


(** ** The transfer *)

(** The size query reports no size when the command fails and when its
    output, stripped, is not made of digits. *)
Lemma get_partition_size_unknown (probe : completed) :
  returncode probe <> 0%Z
  \/ PyStr.isdigit (PyStr.strip (stdout probe)) = false ->
  get_partition_size probe = Returned None.
Proof.
  intros [Hrc | Hdigit]; unfold get_partition_size.
  - apply Z.eqb_neq in Hrc. now rewrite Hrc.
  - now rewrite Hdigit, andb_false_r.
Qed.

Lemma fill_spec size pipe :
  forall buf buf' pipe',
    fill size buf pipe = (buf', pipe') ->
    buf' ++ concat pipe' = buf ++ concat pipe
    /\ (size <= List.length buf' \/ pipe' = []).
Proof.
  induction pipe as [|chunk rest IH]; intros buf buf' pipe' Hf; simpl in Hf.
  - destruct (size <=? List.length buf)%nat eqn:Hle;
      inversion Hf; subst; split; auto.
  - destruct (size <=? List.length buf)%nat eqn:Hle.
    + inversion Hf; subst. split; [reflexivity|]. left. now apply Nat.leb_le.
    + apply IH in Hf as [Hall Hend]. split; [|exact Hend].
      rewrite Hall. simpl. now rewrite <- app_assoc.
Qed.

(** [read] returns the next [size] unread bytes, all of them when fewer
    are left, and leaves the others unread. *)
Lemma read_spec size r data r' :
  read size r = (data, r') ->
  data = firstn size (unread r) /\ unread r' = skipn size (unread r).
Proof.
  unfold read. destruct (fill size (buffered r) (incoming r))
    as [buf pipe] eqn:Hf.
  apply fill_spec in Hf as [Hall Hend]. intros Hr. inversion Hr; subst.
  unfold unread. cbn [buffered incoming]. rewrite <- Hall.
  destruct Hend as [Hle | ->].
  - rewrite firstn_app, skipn_app.
    replace (size - List.length buf) with 0 by lia.
    rewrite firstn_O, app_nil_r. split; reflexivity.
  - cbn [concat]. rewrite !app_nil_r. split; reflexivity.
Qed.

Lemma transfer_loop_copies size :
  0 < size ->
  forall r f p,
  exists p',
    transfer_loop size r f p = (f ++ unread r, p')
    /\ n p' = (n p + Z.of_nat (List.length (unread r)))%Z
    /\ total p' = total p
    /\ closed p' = closed p.
Proof.
  intros Hsize r f p. funelim (transfer_loop size r f p).
  - (* empty read: nothing was left *)
    match goal with E : read _ _ = ([], _) |- _ =>
      destruct (read_spec _ _ _ _ E) as [Hdata _] end.
    assert (Hnone : unread r = []).
    { destruct (unread r); [reflexivity|].
      destruct size; [lia | discriminate]. }
    exists p. rewrite Hnone, app_nil_r. simpl. repeat split. lia.
  - (* a chunk was read: it is written, counted, and the loop goes on *)
    match goal with E : read _ _ = (_ :: _, _) |- _ =>
      destruct (read_spec _ _ _ _ E) as [Hdata Hrest] end.
    match goal with
      IH : 0 < _ -> exists _, transfer_loop _ _ _ _ = _ /\ _ |- _ =>
        destruct (IH Hsize) as (p' & Hloop & Hn & Ht & Hc) end.
    exists p'.
    assert (Hsplit : unread r = (b :: data) ++ unread r').
    { rewrite Hdata, Hrest. symmetry. apply firstn_skipn. }
    rewrite Hloop, Hn, Ht, Hc, Hsplit. cbn [tqdm_update n total closed].
    rewrite <- app_assoc, !length_app, Nat2Z.inj_add.
    repeat split. lia.
Qed.

Lemma detect_progress_tool_cases system pv_found :
  detect_progress_tool system pv_found = "pv"
  \/ detect_progress_tool system pv_found = "tqdm".
Proof.
  unfold detect_progress_tool.
  destruct (String.eqb system "Windows"); [now right|].
  destruct (String.eqb system "Linux"); [|now right].
  destruct pv_found; [now left | now right].
Qed.

(** Either progress branch copies the whole stream and counts it. *)
Lemma progress_branches_copy (partition_size : option Z) dd :
  exists p,
    pv_branch partition_size dd
    = {| saved := concat dd; progress := Some p |}
    /\ tqdm_branch partition_size dd
       = {| saved := concat dd; progress := Some p |}
    /\ n p = Z.of_nat (List.length (concat dd))
    /\ total p = partition_size
    /\ closed p = true.
Proof.
  destruct (transfer_loop_copies CHUNK ltac:(unfold CHUNK; lia)
              (Popen dd) [] (tqdm_new partition_size))
    as (p & Hloop & Hn & Ht & _).
  exists (tqdm_close p). unfold pv_branch, tqdm_branch.
  rewrite Hloop. unfold unread, Popen. cbn [buffered incoming app].
  repeat split; cbn [tqdm_close n total closed]; auto.
Qed.

(** C1, as the code has it: with root confirmed, a size query that
    returned a size other than zero, and either progress tool, the file
    written is the source stream byte for byte (so it has the stream's
    length N) and the closed meter's counter is N. *)
Theorem sized_transfer_copies_stream :
  forall dev save_path progress_tool size,
    snd (check_root (su_probe dev)) = true ->
    get_partition_size (size_probe dev) = Returned (Some size) ->
    size <> 0%Z ->
    progress_tool = "pv" \/ progress_tool = "tqdm" ->
    exists p,
      snd (pull_image dev save_path progress_tool)
      = Returned {| saved := concat (dd_output dev); progress := Some p |}
      /\ n p = Z.of_nat (List.length (concat (dd_output dev)))
      /\ total p = Some size
      /\ closed p = true.
Proof.
  intros dev save_path progress_tool size Hroot Hsize Hnz Htool.
  destruct (progress_branches_copy (Some size) (dd_output dev))
    as (p & Hpv & Htq & Hn & Ht & Hc).
  exists p. unfold pull_image.
  destruct (check_root (su_probe dev)) as [out rooted].
  simpl in Hroot. subst rooted. cbn [negb]. rewrite Hsize.
  assert (Htruthy : truthy (Some size) = true).
  { simpl. apply negb_true_iff, Z.eqb_neq. exact Hnz. }
  rewrite Htruthy. cbn [snd].
  destruct Htool as [-> | ->]; simpl; rewrite ?Hpv, ?Htq; auto.
Qed.

Lemma sized_transfer_copies_stream_witness :
  exists p,
    snd (pull_image sample_device "/tmp/boot.img" "pv")
    = Returned {| saved := [x7f; x45; x4c; x46; x00]; progress := Some p |}
    /\ n p = 5%Z
    /\ total p = Some 5%Z
    /\ closed p = true.
Proof.
  apply (sized_transfer_copies_stream sample_device "/tmp/boot.img" "pv" 5%Z).
  - reflexivity.
  - reflexivity.
  - discriminate.
  - left. reflexivity.
Defined.

(** C1 as stated fails: a size query that answers 0 is a known size, yet
    no meter is created, so there is no counter to hold N. *)
Lemma zero_size_transfer_has_no_counter :
  let dev :=
    {| su_probe := ROOTED;
       size_probe := {| returncode := 0; stdout := "0
" |};
       dd_output := [] |} in
  get_partition_size (size_probe dev) = Returned (Some 0%Z)
  /\ snd (pull_image dev "/tmp/boot.img" "tqdm")
     = Returned {| saved := []; progress := None |}
  /\ ~ (exists t p,
          snd (pull_image dev "/tmp/boot.img" "tqdm") = Returned t
          /\ progress t = Some p
          /\ n p = Z.of_nat (List.length (concat (dd_output dev)))).
Proof.
  cbv zeta. split; [reflexivity|]. split; [reflexivity|].
  intros (t & p & Ht & Hp & _).
  change (snd (pull_image _ _ _))
    with (Returned {| saved := []; progress := None |}) in Ht.
  inversion Ht; subst. discriminate.
Qed.

(** C4, as the code has it: with root confirmed and a size query that
    reports no size, the call completes and the file written is the source
    stream byte for byte; no progress meter is created. *)
Theorem unsized_transfer_copies_stream_without_meter :
  forall dev save_path progress_tool,
    snd (check_root (su_probe dev)) = true ->
    get_partition_size (size_probe dev) = Returned None ->
    snd (pull_image dev save_path progress_tool)
    = Returned {| saved := concat (dd_output dev); progress := None |}.
Proof.
  intros dev save_path progress_tool Hroot Hsize. unfold pull_image.
  destruct (check_root (su_probe dev)) as [out rooted].
  simpl in Hroot. subst rooted. cbn [negb]. rewrite Hsize.
  cbn [truthy]. now rewrite !andb_false_r.
Qed.

Lemma unsized_transfer_copies_stream_without_meter_witness :
  snd (pull_image sample_unsized_device "/tmp/boot.img" "tqdm")
  = Returned {| saved := [x7f; x45; x4c; x46; x00]; progress := None |}.
Proof.
  apply (unsized_transfer_copies_stream_without_meter
           sample_unsized_device "/tmp/boot.img" "tqdm");
    reflexivity.
Defined.

(** C4 as stated fails: with the size unknown the bytes are copied, but
    not under an indeterminate progress display: no meter exists. *)
Lemma unsized_transfer_shows_no_progress :
  get_partition_size (size_probe sample_unsized_device) = Returned None
  /\ ~ (exists t p,
          snd (pull_image sample_unsized_device "/tmp/boot.img" "tqdm")
          = Returned t
          /\ progress t = Some p
          /\ total p = None).
Proof.
  split; [reflexivity|].
  intros (t & p & Ht & Hp & _).
  change (snd (pull_image _ _ _))
    with (Returned {| saved := [x7f; x45; x4c; x46; x00];
                      progress := None |}) in Ht.
  inversion Ht; subst. discriminate.
Qed.

(** C6: the two progress strategies behave alike.  The two branches
    compute the same file and the same meter (same counter, same sequence
    of updates), so [pull_image] gives the same result under ["pv"] and
    under ["tqdm"], and under any two answers of [detect_progress_tool]. *)
Theorem progress_strategies_agree :
  (forall partition_size dd,
      pv_branch partition_size dd = tqdm_branch partition_size dd)
  /\ (forall dev save_path,
         pull_image dev save_path "pv" = pull_image dev save_path "tqdm")
  /\ (forall dev save_path system pv_found system' pv_found',
         pull_image dev save_path (detect_progress_tool system pv_found)
         = pull_image dev save_path (detect_progress_tool system' pv_found')).
Proof.
  assert (Hbranch : forall partition_size dd,
             pv_branch partition_size dd = tqdm_branch partition_size dd).
  { intros partition_size dd.
    destruct (progress_branches_copy partition_size dd)
      as (p & Hpv & Htq & _).
    now rewrite Hpv, Htq. }
  assert (Hpull : forall dev save_path,
             pull_image dev save_path "pv" = pull_image dev save_path "tqdm").
  { intros dev save_path. unfold pull_image.
    destruct (check_root (su_probe dev)) as [out rooted].
    destruct (negb rooted); [reflexivity|].
    destruct (get_partition_size (size_probe dev)) as [size | e | status];
      [|reflexivity|reflexivity].
    change (String.eqb "pv" "pv") with true.
    change (String.eqb "tqdm" "pv") with false.
    change (String.eqb "tqdm" "tqdm") with true.
    cbn [andb].
    destruct (truthy size); [now rewrite Hbranch | reflexivity]. }
  split; [exact Hbranch|]. split; [exact Hpull|].
  intros dev save_path system pv_found system' pv_found'.
  destruct (detect_progress_tool_cases system pv_found) as [-> | ->],
           (detect_progress_tool_cases system' pv_found') as [-> | ->];
    auto.
Qed.

(* ===================================================================== *)
(** * Further properties of the program                                   *)
(* ===================================================================== *)

(** ** The classifier, beyond the first fragment *)

Lemma first_match_unknown_iff cats lowered :
  Forall (fun kc => snd kc <> "Unknown") cats ->
  first_match cats lowered = "Unknown"
  <-> Forall (fun kc => PyStr.contains (fst kc) lowered = false) cats.
Proof.
  induction 1 as [|[key category] rest Hcat _ IH]; simpl.
  - split; [constructor | reflexivity].
  - simpl in Hcat. destruct (PyStr.contains key lowered) eqn:Hk.
    + split; [intros E; contradiction |].
      intros Hall. inversion Hall as [|? ? Hhead _]. simpl in Hhead. congruence.
    + rewrite IH. split; [now constructor | intros Hall; now inversion Hall].
Qed.

Lemma first_match_found cats lowered :
  first_match cats lowered = "Unknown"
  \/ exists key,
      In (key, first_match cats lowered) cats
      /\ PyStr.contains key lowered = true.
Proof.
  induction cats as [|[key category] rest IH]; simpl; [now left|].
  destruct (PyStr.contains key lowered) eqn:Hk.
  - right. exists key. split; [now left | exact Hk].
  - destruct IH as [Hu | (k & Hin & Hc)]; [now left|].
    right. exists k. split; [now right | exact Hc].
Qed.

(** X1: the classifier answers ["Unknown"] exactly for the labels whose
    lower-cased form contains none of the table's fragments. *)
Theorem classifier_unknown_iff_no_fragment :
  forall label,
    get_partition_category label = "Unknown"
    <-> Forall (fun kc =>
                  PyStr.contains (fst kc) (PyStr.lower label) = false)
               categories.
Proof.
  intros label. unfold get_partition_category.
  apply first_match_unknown_iff.
  unfold categories. repeat constructor; discriminate.
Qed.

(** X2: the classifier invents nothing: an answer other than ["Unknown"]
    is the category the table gives to a fragment that does occur in the
    lower-cased label. *)
Theorem classifier_answer_comes_from_table :
  forall label,
    get_partition_category label <> "Unknown" ->
    exists key,
      In (key, get_partition_category label) categories
      /\ PyStr.contains key (PyStr.lower label) = true.
Proof.
  intros label Hknown. unfold get_partition_category in *.
  destruct (first_match_found categories (PyStr.lower label))
    as [Hu | Hfound]; [contradiction | exact Hfound].
Qed.

Lemma classifier_answer_comes_from_table_witness :
  exists key,
    In (key, get_partition_category "Recovery_B") categories
    /\ PyStr.contains key (PyStr.lower "Recovery_B") = true.
Proof.
  apply (classifier_answer_comes_from_table "Recovery_B").
  vm_compute. discriminate.
Defined.

Lemma char_lower_idempotent (c : ascii) :
  PyStr.char_lower (PyStr.char_lower c) = PyStr.char_lower c.
Proof.
  destruct c as [[] [] [] [] [] [] [] []]; vm_compute; reflexivity.
Qed.

Lemma lower_idempotent (s : string) :
  PyStr.lower (PyStr.lower s) = PyStr.lower s.
Proof.
  induction s as [|c s IH]; simpl; [reflexivity|].
  now rewrite char_lower_idempotent, IH.
Qed.

(** X3: the classifier does not look at case: a label and its lower-cased
    form get the same category. *)
Theorem classifier_ignores_case :
  forall label,
    get_partition_category (PyStr.lower label) = get_partition_category label.
Proof.
  intros label. unfold get_partition_category.
  now rewrite lower_idempotent.
Qed.

(** ** The enumerator: failures and the shape of what it returns *)

Lemma named_loop_raises (lines : list string) :
  forall acc,
    Exists short_marker_line (filter is_symlink_line lines) ->
    named_loop lines acc = Raised IndexError.
Proof.
  induction lines as [|line rest IH]; intros acc Hex; simpl in *.
  - inversion Hex.
  - unfold is_symlink_line in *.
    destruct (PyStr.contains "->" line) eqn:Hm; [|now apply IH].
    destruct (le_lt_dec 3 (List.length (PyStr.split_ws line))) as [Hge | Hlt].
    + destruct (parse_symlink_line_in_bounds line Hge)
        as (label & target & _ & _ & Hp).
      rewrite Hp. cbn [bind]. apply IH.
      inversion Hex as [? ? Hshort | ? ? Hrest]; subst; [|exact Hrest].
      unfold short_marker_line in Hshort. lia.
    + now rewrite (parse_symlink_line_short line Hlt).
Qed.

Lemma marker_lines_all_long_or_one_short (lines : list string) :
  Forall (fun l => 3 <= List.length (PyStr.split_ws l)) lines
  \/ Exists short_marker_line lines.
Proof.
  induction lines as [|line rest [IH | IH]].
  - left. constructor.
  - destruct (le_lt_dec 3 (List.length (PyStr.split_ws line))) as [Hge | Hlt].
    + left. now constructor.
    + right. now constructor.
  - right. now constructor 2.
Qed.

(** X4: one malformed line aborts the enumeration.  The enumerator raises
    [IndexError] exactly when the by-name listing succeeded and one of its
    marker lines has fewer than three tokens, wherever that line stands;
    in every other case it returns a list. *)
Theorem enumerator_raises_iff_short_marker_line :
  forall named raw,
    (snd (list_partitions named raw) = Raised IndexError
     <-> returncode named = 0%Z
         /\ Exists short_marker_line
              (filter is_symlink_line
                      (PyStr.split_on NEWLINE (stdout named))))
    /\ (snd (list_partitions named raw) = Raised IndexError
        \/ exists ds, snd (list_partitions named raw) = Returned ds).
Proof.
  intros named raw. unfold list_partitions, named_pass.
  destruct (returncode named =? 0)%Z eqn:Hrc.
  - apply Z.eqb_eq in Hrc.
    destruct (marker_lines_all_long_or_one_short
                (filter is_symlink_line
                        (PyStr.split_on NEWLINE (stdout named))))
      as [Hall | Hshort].
    + destruct (named_loop_complete _ [] Hall) as (ds & Hloop & _).
      rewrite Hloop. cbn [app].
      assert (Hnot : ~ Exists short_marker_line
                       (filter is_symlink_line
                               (PyStr.split_on NEWLINE (stdout named)))).
      { intros Hex. apply Exists_exists in Hex as (l & Hin & Hl).
        rewrite Forall_forall in Hall. specialize (Hall l Hin).
        unfold short_marker_line in Hl. lia. }
      destruct ds; cbn [snd]; split;
        try (right; eexists; reflexivity);
        (split; [discriminate | intros [_ Hex]; contradiction]).
    + rewrite (named_loop_raises _ [] Hshort). cbn [snd].
      split; [split; auto | now left].
  - cbn [snd]. split; [|right; eexists; reflexivity].
    split; [discriminate|]. intros [Hz _]. rewrite Hz in Hrc. discriminate.
Qed.

(** X5: a by-name listing that failed is not parsed: whatever it printed,
    marker lines included, the result is the generic fallback's. *)
Theorem failed_named_listing_is_ignored :
  forall named raw,
    returncode named <> 0%Z ->
    list_partitions named raw
    = ([WARNING_GENERIC], Returned (fallback_pass raw)).
Proof.
  intros named raw Hrc. unfold list_partitions, named_pass.
  apply Z.eqb_neq in Hrc. now rewrite Hrc.
Qed.

Lemma failed_named_listing_is_ignored_witness :
  list_partitions
    {| returncode := 1; stdout := stdout sample_named_listing |}
    sample_raw_listing
  = ([WARNING_GENERIC], Returned (fallback_pass sample_raw_listing)).
Proof.
  apply (failed_named_listing_is_ignored
           {| returncode := 1; stdout := stdout sample_named_listing |}
           sample_raw_listing).
  discriminate.
Defined.

Lemma forall_chars_app p (a b : string) :
  PyStr.forall_chars p (a ++ b)
  = PyStr.forall_chars p a && PyStr.forall_chars p b.
Proof.
  induction a as [|c a IH]; simpl; [reflexivity|].
  now rewrite IH, andb_assoc.
Qed.

Lemma snoc_not_empty (t : string) (c : ascii) :
  (t ++ String c EmptyString)%string <> EmptyString.
Proof. destruct t; discriminate. Qed.

(** What [split()] returns are tokens. *)
Lemma split_ws_aux_tokens (s : string) :
  forall cur,
    (forall t, cur = Some t -> is_token t) ->
    Forall is_token (PyStr.split_ws_aux cur s).
Proof.
  induction s as [|c s IH]; intros cur Hcur; simpl.
  - destruct cur as [t|]; [|constructor].
    constructor; [now apply Hcur | constructor].
  - destruct (PyStr.isspace c) eqn:Hc.
    + destruct cur as [t|].
      * constructor; [now apply Hcur|]. apply IH. discriminate.
      * apply IH. discriminate.
    + assert (Hn : nonspace c = true) by (unfold nonspace; now rewrite Hc).
      destruct cur as [t|]; apply IH; intros t' Ht'; inversion Ht'; subst.
      * destruct (Hcur t eq_refl) as [_ Ht]. split; [apply snoc_not_empty|].
        rewrite forall_chars_app, Ht. simpl. now rewrite Hn.
      * split; [discriminate|]. simpl. now rewrite Hn.
Qed.

Lemma split_ws_tokens (s : string) : Forall is_token (PyStr.split_ws s).
Proof. apply split_ws_aux_tokens. discriminate. Qed.

(** Fields of [split(sep)] keep what holds of every character. *)
Lemma split_on_aux_forall_chars p sep (s : string) :
  forall cur,
    PyStr.forall_chars p cur = true ->
    PyStr.forall_chars p s = true ->
    Forall (fun f => PyStr.forall_chars p f = true)
           (PyStr.split_on_aux sep cur s).
Proof.
  induction s as [|c s IH]; intros cur Hcur Hs; simpl.
  - now constructor.
  - simpl in Hs. apply andb_true_iff in Hs as [Hc Hs].
    destruct (Ascii.eqb c sep).
    + constructor; [exact Hcur | now apply IH].
    + apply IH; [|exact Hs]. rewrite forall_chars_app, Hcur. simpl.
      now rewrite Hc.
Qed.

Lemma index_from_end_In {A} (l : list A) (k : nat) (x : A) :
  PyStr.index_from_end l k = Some x -> In x l.
Proof.
  unfold PyStr.index_from_end.
  destruct ((1 <=? k) && (k <=? List.length l))%nat; [|discriminate].
  apply nth_error_In.
Qed.

Lemma parse_symlink_line_parts line d :
  parses_to line d ->
  exists label target,
    PyStr.index_from_end (PyStr.split_ws line) 3 = Some label
    /\ PyStr.index_from_end (PyStr.split_ws line) 1 = Some target
    /\ d = (last (PyStr.split_on SLASH target) EmptyString, label,
            get_partition_category label).
Proof.
  unfold parses_to, parse_symlink_line. intros Hp.
  destruct (PyStr.index_from_end (PyStr.split_ws line) 3) as [label|];
    [|discriminate].
  destruct (PyStr.index_from_end (PyStr.split_ws line) 1) as [target|];
    [|discriminate].
  cbn [of_option bind] in Hp. exists label, target.
  rewrite (index_from_end_last _ EmptyString) in Hp
    by apply split_on_aux_nonempty.
  cbn [of_option bind] in Hp. inversion Hp. auto.
Qed.

(** X6: what the named pass stores.  Every descriptor it returns has a
    label that is one token of a marker line (non-empty, no white space),
    the category the classifier gives to that label, and a node name free
    of white space and of ["/"]. *)
Theorem named_descriptors_are_well_formed :
  forall named ds d,
    named_pass named = Returned ds -> In d ds ->
    is_token (label_of d)
    /\ category_of d = get_partition_category (label_of d)
    /\ PyStr.forall_chars nonspace (node_of d) = true
    /\ lacks SLASH (node_of d).
Proof.
  unfold named_pass. intros named ds d Hpass Hin.
  destruct (returncode named =? 0)%Z;
    [|inversion Hpass; subst; contradiction].
  apply named_loop_sound in Hpass as (ds' & -> & Hds).
  destruct (Forall2_In_right _ _ _ _ Hds Hin) as (line & _ & Hp).
  apply parse_symlink_line_parts in Hp as (label & target & Hl & Ht & ->).
  pose proof (split_ws_tokens line) as Htok. rewrite Forall_forall in Htok.
  pose proof (Htok _ (index_from_end_In _ _ _ Hl)) as Hlabel.
  pose proof (Htok _ (index_from_end_In _ _ _ Ht)) as [_ Htarget].
  unfold label_of, category_of, node_of. cbn [fst snd].
  repeat split; try apply Hlabel.
  - apply Forall_last; [|reflexivity].
    apply split_on_aux_forall_chars; [reflexivity | exact Htarget].
  - apply last_field_lacks.
Qed.

Lemma named_descriptors_are_well_formed_witness :
  is_token "vbmeta_system"
  /\ "Android System" = get_partition_category "vbmeta_system"
  /\ PyStr.forall_chars nonspace "mmcblk0p3" = true
  /\ lacks SLASH "mmcblk0p3".
Proof.
  apply (named_descriptors_are_well_formed sample_named_listing
           [("mmcblk0p12", "boot", "Bootloader");
            ("mmcblk0p3", "vbmeta_system", "Android System")]
           ("mmcblk0p3", "vbmeta_system", "Android System")).
  - reflexivity.
  - simpl. auto.
Defined.

(** Stripping keeps an occurrence of a token. *)
Lemma lstrip_keeps_token sub (s : string) :
  is_token sub ->
  PyStr.contains sub s = true -> PyStr.contains sub (PyStr.lstrip s) = true.
Proof.
  intros [Hne Hsub]. induction s as [|c s IH]; intros Hc; [exact Hc|].
  cbn [PyStr.lstrip]. destruct (PyStr.isspace c) eqn:Hsp; [|exact Hc].
  rewrite contains_cons in Hc. apply orb_true_iff in Hc as [Hp | Hc];
    [|now apply IH].
  apply prefix_iff in Hp as (post & Hp).
  destruct sub as [|a sub]; [contradiction|].
  simpl in Hp. inversion Hp; subst a.
  simpl in Hsub. unfold nonspace in Hsub at 1. rewrite Hsp in Hsub.
  discriminate.
Qed.

Lemma rstrip_keeps_leading_token sub :
  is_token sub ->
  forall post, exists post',
    PyStr.rstrip (sub ++ post) = (sub ++ post')%string.
Proof.
  intros [Hne Hsub]. induction sub as [|a sub IH]; [contradiction|].
  intros post. simpl in Hsub. apply andb_true_iff in Hsub as [Ha Hsub].
  unfold nonspace in Ha. apply negb_true_iff in Ha.
  cbn [append PyStr.rstrip]. destruct sub as [|b sub].
  - cbn [append]. destruct (PyStr.rstrip post) as [|x r] eqn:Hr.
    + rewrite Ha. now exists EmptyString.
    + now exists (String x r).
  - destruct (IH ltac:(discriminate) Hsub post) as (post' & Hr).
    rewrite Hr. cbn [append]. now exists post'.
Qed.

Lemma contains_empty_token sub :
  is_token sub -> PyStr.contains sub EmptyString = false.
Proof.
  intros [Hne _]. destruct sub; [contradiction | reflexivity].
Qed.

Lemma rstrip_keeps_token sub (s : string) :
  is_token sub ->
  PyStr.contains sub s = true -> PyStr.contains sub (PyStr.rstrip s) = true.
Proof.
  intros Htok. induction s as [|c s IH]; intros Hc; [exact Hc|].
  rewrite contains_cons in Hc. apply orb_true_iff in Hc as [Hp | Hc].
  - apply prefix_iff in Hp as (post & ->).
    destruct (rstrip_keeps_leading_token sub Htok post) as (post' & ->).
    apply contains_iff. now exists EmptyString, post'.
  - specialize (IH Hc). cbn [PyStr.rstrip].
    destruct (PyStr.rstrip s) as [|x r] eqn:Hr.
    + rewrite contains_empty_token in IH by exact Htok. discriminate.
    + rewrite contains_cons, IH. apply orb_true_r.
Qed.

Lemma generic_entries_In d lines :
  In d (generic_entries lines) ->
  exists line,
    In line lines
    /\ PyStr.contains "mmcblk0p" line = true
    /\ d = (PyStr.strip line, PyStr.strip line, "Unknown").
Proof.
  rewrite generic_entries_map_filter, in_map_iff.
  intros (line & <- & Hin). apply filter_In in Hin as [Hin Hm].
  now exists line.
Qed.

(** X7: what the fallback stores.  Every descriptor it returns has its
    node name as label, the category ["Unknown"], and a node name that
    still contains ["mmcblk0p"] after the surrounding white space of its
    line was stripped. *)
Theorem fallback_descriptors_are_generic_nodes :
  forall raw d,
    In d (fallback_pass raw) ->
    label_of d = node_of d
    /\ category_of d = "Unknown"
    /\ PyStr.contains "mmcblk0p" (node_of d) = true.
Proof.
  intros raw d Hin. apply generic_entries_In in Hin as (line & _ & Hm & ->).
  unfold label_of, category_of, node_of. cbn [fst snd].
  repeat split. unfold PyStr.strip.
  assert (Htok : is_token "mmcblk0p") by (split; [discriminate | reflexivity]).
  now apply rstrip_keeps_token, lstrip_keeps_token.
Qed.

Lemma fallback_descriptors_are_generic_nodes_witness :
  label_of ("mmcblk0p2", "mmcblk0p2", "Unknown")
  = node_of ("mmcblk0p2", "mmcblk0p2", "Unknown")
  /\ category_of ("mmcblk0p2", "mmcblk0p2", "Unknown") = "Unknown"
  /\ PyStr.contains "mmcblk0p"
       (node_of ("mmcblk0p2", "mmcblk0p2", "Unknown")) = true.
Proof.
  apply (fallback_descriptors_are_generic_nodes sample_raw_listing).
  vm_compute. auto.
Defined.

(** ** The partition selector over a whole session *)

Lemma rejects_reprompts count entry rest out :
  rejects count entry = true ->
  choice_loop count (entry :: rest) out
  = choice_loop count rest (out ++ [PROMPT_CHOICE; INVALID_CHOICE]).
Proof.
  unfold rejects. intros Hr.
  replace (out ++ [PROMPT_CHOICE; INVALID_CHOICE])
    with (say (say out PROMPT_CHOICE) INVALID_CHOICE)
    by (unfold say; now rewrite <- app_assoc).
  destruct (PyStr.isdigit entry) eqn:Hd;
    [|now apply choice_loop_reprompts_nondigit].
  simpl in Hr. apply andb_true_iff in Hr as [_ Hr].
  destruct (PyStr.int entry) as [v|] eqn:Hv; [|discriminate].
  apply negb_true_iff, andb_false_iff in Hr.
  apply (choice_loop_reprompts_out_of_range _ _ _ _ v Hv).
  destruct Hr as [Hr | Hr]; apply Z.leb_gt in Hr; lia.
Qed.

Lemma choice_loop_skips count bad :
  forall tail out,
    forallb (rejects count) bad = true ->
    choice_loop count (bad ++ tail) out
    = choice_loop count tail (out ++ reprompts bad).
Proof.
  induction bad as [|entry bad IH]; intros tail out Hbad.
  - unfold reprompts. simpl. now rewrite app_nil_r.
  - simpl in Hbad. apply andb_true_iff in Hbad as [Hentry Hbad].
    cbn [app]. rewrite (rejects_reprompts _ _ _ _ Hentry), (IH _ _ Hbad).
    unfold reprompts. cbn [map concat]. now rewrite <- app_assoc.
Qed.

Lemma selector_session :
  forall partitions bad good v rest out,
    forallb (rejects (List.length partitions)) bad = true ->
    within_digit_limit good = true ->
    PyStr.int good = Some v ->
    (1 <= v <= Z.of_nat (List.length partitions) + 1)%Z ->
    choose_partition partitions
      {| pending := bad ++ good :: rest; printed := out |}
    = ({| pending := rest;
          printed := (out ++ menu partitions) ++ reprompts bad
                       ++ [PROMPT_CHOICE] |},
       resolve_choice partitions good).
Proof.
  intros partitions bad good v rest out Hbad _ Hv Hrange.
  unfold choose_partition. cbn [pending printed].
  rewrite (choice_loop_skips _ _ _ _ Hbad).
  rewrite (choice_loop_accepts_in_range _ _ _ _ _ Hv Hrange).
  unfold say. now rewrite <- app_assoc.
Qed.

(** X8: a session with the selector.  After any number of rejected
    entries (entries [isdigit] refuses, and decimal numbers of at most
    4300 digits outside [1 .. P + 1]), the first entry that is a decimal
    number of at most 4300 digits in [1 .. P + 1] decides: each rejected
    entry got one prompt and one error line, the entries typed after the
    accepted one are left unread, and the result is the accepted number's
    resolution. *)
Theorem selector_takes_first_valid_entry :
  forall partitions bad good v rest out,
    forallb (rejects (List.length partitions)) bad = true ->
    within_digit_limit good = true ->
    PyStr.int good = Some v ->
    (1 <= v <= Z.of_nat (List.length partitions) + 1)%Z ->
    choose_partition partitions
      {| pending := bad ++ good :: rest; printed := out |}
    = ({| pending := rest;
          printed := (out ++ menu partitions) ++ reprompts bad
                       ++ [PROMPT_CHOICE] |},
       resolve_choice partitions good).
Proof. exact selector_session. Qed.

Lemma selector_takes_first_valid_entry_witness :
  choose_partition [("mmcblk0p12", "boot", "Bootloader")]
    {| pending := ["boot"; "0"; "3"; ""; "1"; "/tmp/boot.img"];
       printed := [] |}
  = ({| pending := ["/tmp/boot.img"];
        printed := ([] ++ menu [("mmcblk0p12", "boot", "Bootloader")])
                     ++ reprompts ["boot"; "0"; "3"; ""]
                     ++ [PROMPT_CHOICE] |},
     resolve_choice [("mmcblk0p12", "boot", "Bootloader")] "1").
Proof.
  apply (selector_takes_first_valid_entry
           [("mmcblk0p12", "boot", "Bootloader")]
           ["boot"; "0"; "3"; ""] "1" 1%Z ["/tmp/boot.img"] []).
  - reflexivity.
  - reflexivity.
  - reflexivity.
  - simpl. lia.
Defined.

(** X9: when the input ends after only rejected entries (entries
    [isdigit] refuses, and decimal numbers of at most 4300 digits outside
    [1 .. P + 1]), the selector ends with [EOFError], after one prompt
    and one error line per entry and a last prompt. *)
Theorem selector_ends_with_eof_error :
  forall partitions bad out,
    forallb (rejects (List.length partitions)) bad = true ->
    choose_partition partitions {| pending := bad; printed := out |}
    = ({| pending := [];
          printed := (out ++ menu partitions) ++ reprompts bad
                       ++ [PROMPT_CHOICE] |},
       Raised EOFError).
Proof.
  intros partitions bad out Hbad.
  unfold choose_partition. cbn [pending printed].
  rewrite <- (app_nil_r bad) at 1.
  rewrite (choice_loop_skips _ _ _ _ Hbad). cbn [choice_loop bind].
  unfold say. now rewrite <- app_assoc.
Qed.

Lemma selector_ends_with_eof_error_witness :
  choose_partition [("mmcblk0p12", "boot", "Bootloader")]
    {| pending := ["boot"; "9"]; printed := [] |}
  = ({| pending := [];
        printed := ([] ++ menu [("mmcblk0p12", "boot", "Bootloader")])
                     ++ reprompts ["boot"; "9"] ++ [PROMPT_CHOICE] |},
     Raised EOFError).
Proof.
  apply (selector_ends_with_eof_error
           [("mmcblk0p12", "boot", "Bootloader")] ["boot"; "9"] []).
  reflexivity.
Defined.

Lemma choice_loop_result count inputs :
  forall out c r,
    choice_loop count inputs out = (c, r) ->
    (r = Raised EOFError \/ r = Raised ValueError
     \/ exists choice v,
         r = Returned choice /\ PyStr.int choice = Some v
         /\ (1 <= v <= Z.of_nat count + 1)%Z)
    /\ exists consumed, inputs = consumed ++ pending c.
Proof.
  induction inputs as [|entry rest IH]; intros out c r Hloop; simpl in Hloop.
  - inversion Hloop; subst. split; [now left | now exists []].
  - assert (Hnext : forall out',
               choice_loop count rest out' = (c, r) ->
               (r = Raised EOFError \/ r = Raised ValueError
                \/ exists choice v,
                    r = Returned choice /\ PyStr.int choice = Some v
                    /\ (1 <= v <= Z.of_nat count + 1)%Z)
               /\ exists consumed, entry :: rest = consumed ++ pending c).
    { intros out' H'. destruct (IH _ _ _ H') as [Hr (consumed & Hc)].
      split; [exact Hr|]. exists (entry :: consumed). simpl. now rewrite <- Hc. }
    destruct (PyStr.isdigit entry); [|now apply Hnext in Hloop].
    destruct (PyStr.int entry) as [v|] eqn:Hv.
    + destruct ((1 <=? v) && (v <=? Z.of_nat count + 1))%Z eqn:Hrange;
        [|now apply Hnext in Hloop].
      inversion Hloop; subst. cbn [pending]. split; [|now exists [entry]].
      right. right. exists entry, v.
      apply andb_true_iff in Hrange as [H1 H2].
      apply Z.leb_le in H1, H2. auto.
    + inversion Hloop; subst. cbn [pending].
      split; [now right; left | now exists [entry]].
Qed.

Lemma choose_partition_result :
  forall partitions c c' r,
    choose_partition partitions c = (c', r) ->
    match r with
    | Returned path =>
        path = FULL_DISK
        \/ exists d, In d partitions /\ path = device_path d
    | Raised e => e = EOFError \/ e = ValueError
    | Exited _ => False
    end
    /\ exists consumed, pending c = consumed ++ pending c'.
Proof.
  intros partitions c c' r. unfold choose_partition.
  destruct (choice_loop (List.length partitions) (pending c)
                        (printed c ++ menu partitions)) as [c0 r0] eqn:Hloop.
  intros Hcp. inversion Hcp; subst c0 r. clear Hcp.
  destruct (choice_loop_result _ _ _ _ _ Hloop) as [Hr Hconsumed].
  split; [|exact Hconsumed].
  destruct Hr as [-> | [-> | (choice & v & -> & Hv & Hrange)]];
    cbn [bind]; auto.
  unfold resolve_choice. rewrite Hv. cbn [of_option bind].
  destruct (v =? Z.of_nat (List.length partitions) + 1)%Z eqn:Hfull;
    [now left|].
  apply Z.eqb_neq in Hfull.
  destruct (nth_error partitions (Z.to_nat (v - 1))) as [d|] eqn:Hd.
  - cbn [of_option bind]. apply nth_error_In in Hd.
    destruct (PyStr.contains "by-name" (node_of d)) eqn:Hb;
      right; exists d; unfold device_path; rewrite Hb;
      (split; [exact Hd | reflexivity]).
  - apply nth_error_None in Hd. lia.
Qed.

(** X10: what the selector can give back.  A returned path is the
    full-disk path or the device path built from the node name of a
    listed partition; the only exceptions are [EOFError] and [ValueError]
    (never [IndexError], never [exit]); and the entries left unread are a
    tail of those given. *)
Theorem selector_results_are_listed_paths :
  forall partitions c c' r,
    choose_partition partitions c = (c', r) ->
    match r with
    | Returned path =>
        path = FULL_DISK
        \/ exists d, In d partitions /\ path = device_path d
    | Raised e => e = EOFError \/ e = ValueError
    | Exited _ => False
    end
    /\ exists consumed, pending c = consumed ++ pending c'.
Proof. exact choose_partition_result. Qed.

Lemma selector_results_are_listed_paths_witness :
  match Returned (A := string) "/dev/block/mmcblk0p12" with
  | Returned path =>
      path = FULL_DISK
      \/ exists d,
          In d [("mmcblk0p12", "boot", "Bootloader")] /\ path = device_path d
  | Raised e => e = EOFError \/ e = ValueError
  | Exited _ => False
  end
  /\ exists consumed, ["x"; "1"; "y"] = consumed ++ ["y"].
Proof.
  apply (selector_results_are_listed_paths
           [("mmcblk0p12", "boot", "Bootloader")]
           {| pending := ["x"; "1"; "y"]; printed := [] |}
           {| pending := ["y"];
              printed := menu [("mmcblk0p12", "boot", "Bootloader")]
                           ++ [PROMPT_CHOICE; INVALID_CHOICE; PROMPT_CHOICE] |}
           (Returned "/dev/block/mmcblk0p12")).
  reflexivity.
Defined.

(** ** Numbers printed and numbers read *)

Lemma string_of_uint_decimal (d : Decimal.uint) :
  PyStr.forall_chars PyStr.char_isdecimal (NilEmpty.string_of_uint d) = true.
Proof. induction d; simpl; auto. Qed.

Lemma decimal_value_of_uint (d : Decimal.uint) :
  forall a : nat,
    PyStr.decimal_value (Z.of_nat a) (NilEmpty.string_of_uint d)
    = Z.of_nat (Nat.of_uint_acc d a).
Proof.
  induction d; intros a; cbn [NilEmpty.string_of_uint PyStr.decimal_value
                               Nat.of_uint_acc]; [reflexivity | ..];
    rewrite <- IHd; f_equal; rewrite Nat.tail_mul_spec;
    change (Z.of_nat (nat_of_ascii _) - 48)%Z with 0%Z
    || change (Z.of_nat (nat_of_ascii _) - 48)%Z with 1%Z
    || change (Z.of_nat (nat_of_ascii _) - 48)%Z with 2%Z
    || change (Z.of_nat (nat_of_ascii _) - 48)%Z with 3%Z
    || change (Z.of_nat (nat_of_ascii _) - 48)%Z with 4%Z
    || change (Z.of_nat (nat_of_ascii _) - 48)%Z with 5%Z
    || change (Z.of_nat (nat_of_ascii _) - 48)%Z with 6%Z
    || change (Z.of_nat (nat_of_ascii _) - 48)%Z with 7%Z
    || change (Z.of_nat (nat_of_ascii _) - 48)%Z with 8%Z
    || change (Z.of_nat (nat_of_ascii _) - 48)%Z with 9%Z;
    lia.
Qed.

Lemma string_of_nat_not_empty (k : nat) : string_of_nat k <> EmptyString.
Proof.
  unfold string_of_nat. destruct (Nat.to_uint k) eqn:E; try discriminate.
  assert (Hk : k = 0)
    by (rewrite <- (DecimalNat.Unsigned.of_to k), E; reflexivity).
  subst k. discriminate.
Qed.

(** Reading back a printed number gives the number. *)
Lemma int_string_of_nat (k : nat) :
  PyStr.int (string_of_nat k) = Some (Z.of_nat k).
Proof.
  pose proof (string_of_nat_not_empty k) as Hne.
  unfold PyStr.int. destruct (string_of_nat k) as [|c s] eqn:E;
    [contradiction|].
  rewrite <- E. unfold string_of_nat.
  rewrite string_of_uint_decimal. f_equal.
  change 0%Z with (Z.of_nat 0). rewrite decimal_value_of_uint.
  f_equal. apply DecimalNat.Unsigned.of_to.
Qed.

Lemma menu_lines_nth partitions :
  forall start i part label category,
    nth_error partitions i = Some (part, label, category) ->
    nth_error (menu_lines start partitions) i
    = Some (string_of_nat (start + i) ++ ". " ++ label ++ " (" ++ part
              ++ ") - " ++ category)%string.
Proof.
  induction partitions as [|[[p l] c] rest IH];
    intros start i part label category Hi.
  - destruct i; discriminate.
  - destruct i as [|i]; simpl in Hi |- *.
    + inversion Hi; subst. now rewrite Nat.add_0_r.
    + rewrite (IH (S start) i _ _ _ Hi). now rewrite Nat.add_succ_r.
Qed.

(** X11: the menu and the selector agree.  The line the menu shows for
    the partition at position [i] starts with the number [i + 1], and
    typing that number, as printed, selects that partition's device
    path; the number shown for the full disk gives the full-disk path. *)
Theorem typing_a_menu_number_selects_its_entry :
  forall partitions rest out,
    (forall i part label category,
        nth_error partitions i = Some (part, label, category) ->
        nth_error (menu partitions) (S i)
        = Some (string_of_nat (S i) ++ ". " ++ label ++ " (" ++ part
                  ++ ") - " ++ category)%string
        /\ choose_partition partitions
             {| pending := string_of_nat (S i) :: rest; printed := out |}
           = ({| pending := rest;
                 printed := say (out ++ menu partitions) PROMPT_CHOICE |},
              Returned (device_path (part, label, category))))
    /\ last (menu partitions) EmptyString
       = (string_of_nat (List.length partitions + 1)
            ++ ". FULL DISK IMAGE")%string
    /\ choose_partition partitions
         {| pending := string_of_nat (List.length partitions + 1) :: rest;
            printed := out |}
       = ({| pending := rest;
             printed := say (out ++ menu partitions) PROMPT_CHOICE |},
          Returned FULL_DISK).
Proof.
  intros partitions rest out. split; [|split].
  - intros i part label category Hi.
    assert (Hlt : i < List.length partitions)
      by (apply nth_error_Some; rewrite Hi; discriminate).
    split.
    + unfold menu. cbn [nth_error].
      rewrite nth_error_app1
        by (apply nth_error_Some;
            rewrite (menu_lines_nth _ 1 i _ _ _ Hi); discriminate).
      apply (menu_lines_nth _ 1 i _ _ _ Hi).
    + unfold choose_partition. cbn [pending printed].
      rewrite (choice_loop_accepts_in_range _ _ _ _ _
                 (int_string_of_nat (S i)))
        by (unfold descriptor in *; lia).
      cbn [bind]. unfold resolve_choice.
      rewrite int_string_of_nat. cbn [of_option bind].
      unfold descriptor in *.
      replace (Z.of_nat (S i) =? Z.of_nat (List.length partitions) + 1)%Z
        with false by (symmetry; apply Z.eqb_neq; unfold descriptor in *; lia).
      replace (Z.to_nat (Z.of_nat (S i) - 1)) with i by lia.
      rewrite Hi. cbn [of_option bind]. unfold device_path.
      now destruct (PyStr.contains "by-name" (node_of (part, label, category))).
  - unfold menu.
    change ("Available partitions:"
              :: menu_lines 1 partitions
              ++ [(string_of_nat (List.length partitions + 1)
                     ++ ". FULL DISK IMAGE")%string])
      with (("Available partitions:" :: menu_lines 1 partitions)
              ++ [(string_of_nat (List.length partitions + 1)
                     ++ ". FULL DISK IMAGE")%string]).
    apply last_last.
  - unfold choose_partition. cbn [pending printed].
    rewrite (choice_loop_accepts_in_range _ _ _ _ _
               (int_string_of_nat (List.length partitions + 1)))
      by (unfold descriptor in *; lia).
    cbn [bind]. unfold resolve_choice.
    rewrite int_string_of_nat. cbn [of_option bind].
    match goal with
    | |- context [Z.eqb ?a ?b] =>
        replace (Z.eqb a b) with true
          by (symmetry; apply Z.eqb_eq; unfold descriptor in *; lia)
    end.
    reflexivity.
Qed.

Lemma typing_a_menu_number_selects_its_entry_witness :
  nth_error (menu [("mmcblk0p12", "boot", "Bootloader");
                   ("mmcblk0p3", "vbmeta_system", "Android System")]) 2
  = Some "2. vbmeta_system (mmcblk0p3) - Android System"
  /\ choose_partition [("mmcblk0p12", "boot", "Bootloader");
                       ("mmcblk0p3", "vbmeta_system", "Android System")]
       {| pending := ["2"]; printed := [] |}
     = ({| pending := [];
           printed :=
             say ([] ++ menu [("mmcblk0p12", "boot", "Bootloader");
                              ("mmcblk0p3", "vbmeta_system",
                               "Android System")])
                 PROMPT_CHOICE |},
        Returned "/dev/block/mmcblk0p3").
Proof.
  apply (proj1 (typing_a_menu_number_selects_its_entry
                  [("mmcblk0p12", "boot", "Bootloader");
                   ("mmcblk0p3", "vbmeta_system", "Android System")] [] [])
               1 "mmcblk0p3" "vbmeta_system" "Android System").
  reflexivity.
Defined.

(** ** Stripping *)

Lemma rstrip_empty_iff (s : string) :
  PyStr.rstrip s = EmptyString <-> PyStr.forall_chars PyStr.isspace s = true.
Proof.
  induction s as [|c s IH]; simpl; [tauto|].
  destruct (PyStr.rstrip s) as [|x r].
  - destruct (PyStr.isspace c); simpl.
    + split; [intros _; now apply IH | reflexivity].
    + split; discriminate.
  - split; [discriminate|]. intros H. apply andb_true_iff in H as [_ H].
    apply IH in H. discriminate.
Qed.

Lemma lstrip_forall_space (s : string) :
  PyStr.forall_chars PyStr.isspace (PyStr.lstrip s)
  = PyStr.forall_chars PyStr.isspace s.
Proof.
  induction s as [|c s IH]; [reflexivity|].
  cbn [PyStr.lstrip]. destruct (PyStr.isspace c) eqn:Hc.
  - simpl. now rewrite Hc, IH.
  - reflexivity.
Qed.

(** [strip] leaves nothing exactly of the strings made of white space. *)
Lemma strip_empty_iff (s : string) :
  PyStr.strip s = EmptyString <-> PyStr.forall_chars PyStr.isspace s = true.
Proof.
  unfold PyStr.strip. now rewrite rstrip_empty_iff, lstrip_forall_space.
Qed.

Lemma rstrip_padded (t ws : string) :
  PyStr.forall_chars nonspace t = true ->
  PyStr.forall_chars PyStr.isspace ws = true ->
  PyStr.rstrip (t ++ ws) = t.
Proof.
  intros Ht Hws. induction t as [|a t IH].
  - now apply rstrip_empty_iff.
  - simpl in Ht. apply andb_true_iff in Ht as [Ha Ht].
    unfold nonspace in Ha. apply negb_true_iff in Ha.
    cbn [append PyStr.rstrip]. rewrite (IH Ht).
    destruct t; [now rewrite Ha | reflexivity].
Qed.

Lemma lstrip_padded (ws t : string) :
  PyStr.forall_chars PyStr.isspace ws = true ->
  is_token t ->
  forall tail, PyStr.lstrip (ws ++ t ++ tail) = (t ++ tail)%string.
Proof.
  intros Hws [Hne Ht] tail. induction ws as [|c ws IH].
  - destruct t as [|a t]; [contradiction|].
    simpl in Ht. apply andb_true_iff in Ht as [Ha _].
    unfold nonspace in Ha. apply negb_true_iff in Ha.
    cbn [append PyStr.lstrip]. now rewrite Ha.
  - simpl in Hws. apply andb_true_iff in Hws as [Hc Hws].
    cbn [append PyStr.lstrip]. rewrite Hc. now apply IH.
Qed.

(** [strip] gives back a token padded with white space. *)
Lemma strip_padded_token (ws1 t ws2 : string) :
  PyStr.forall_chars PyStr.isspace ws1 = true ->
  is_token t ->
  PyStr.forall_chars PyStr.isspace ws2 = true ->
  PyStr.strip (ws1 ++ t ++ ws2) = t.
Proof.
  intros H1 Ht H2. unfold PyStr.strip.
  rewrite (lstrip_padded _ _ H1 Ht). apply rstrip_padded; [apply Ht | exact H2].
Qed.

Lemma decimal_is_nonspace (c : ascii) :
  PyStr.char_isdecimal c = true -> nonspace c = true.
Proof.
  destruct c as [[] [] [] [] [] [] [] []]; vm_compute; congruence.
Qed.

Lemma string_of_nat_is_token (k : nat) : is_token (string_of_nat k).
Proof.
  split; [apply string_of_nat_not_empty|].
  apply (forall_chars_impl PyStr.char_isdecimal); [apply decimal_is_nonspace|].
  apply string_of_uint_decimal.
Qed.

(** ** The root check and the size query *)

(** X12: the root check answers yes exactly when the probe ran, returned
    0 and printed something other than white space; a probe that could
    not run is logged and counts as no. *)
Theorem root_check_accepts_iff_su_was_found :
  forall probe e,
    (snd (check_root probe) = true
     <-> exists result,
         probe = inl result
         /\ returncode result = 0%Z
         /\ PyStr.forall_chars PyStr.isspace (stdout result) = false)
    /\ check_root (inr e)
       = ([("Error while checking root status: " ++ e)%string], false).
Proof.
  intros probe e0. split.
  - destruct probe as [result | e]; cbn [check_root snd].
    + rewrite andb_true_iff, Z.eqb_eq, negb_true_iff.
      assert (Hstrip : String.eqb (PyStr.strip (stdout result)) "" = false
                       <-> PyStr.forall_chars PyStr.isspace (stdout result)
                           = false).
      { rewrite String.eqb_neq, strip_empty_iff.
        destruct (PyStr.forall_chars PyStr.isspace (stdout result));
          split; congruence. }
      rewrite Hstrip. split.
      * intros [Hrc Hout]. now exists result.
      * intros (r & Hr & Hrc & Hout). inversion Hr; subst. auto.
    + split; [discriminate | intros (r & Hr & _); discriminate].
  - reflexivity.
Qed.

Lemma decimal_value_nonneg (s : string) :
  forall acc,
    (0 <= acc)%Z ->
    PyStr.forall_chars PyStr.char_isdecimal s = true ->
    (0 <= PyStr.decimal_value acc s)%Z.
Proof.
  induction s as [|c s IH]; intros acc Hacc Hs;
    cbn [PyStr.decimal_value]; [exact Hacc|].
  cbn [PyStr.forall_chars] in Hs. apply andb_true_iff in Hs as [Hc Hs].
  apply IH; [|exact Hs].
  unfold PyStr.char_isdecimal in Hc. apply andb_true_iff in Hc as [Hlo _].
  apply Nat.leb_le in Hlo. lia.
Qed.

Lemma int_nonneg (s : string) (v : Z) :
  PyStr.int s = Some v -> (0 <= v)%Z.
Proof.
  unfold PyStr.int. destruct s as [|c s]; [discriminate|].
  destruct (PyStr.forall_chars PyStr.char_isdecimal (String c s)) eqn:Hd;
    [|discriminate].
  intros Hv.
  pose proof (decimal_value_nonneg (String c s) 0%Z (Z.le_refl 0) Hd) as H0.
  congruence.
Qed.

(** X13: the size query reads back what [blockdev] prints: for a size
    printed in decimal with at most 4300 digits, with any white space
    around it, and return code 0, the answer is that size. *)
Theorem size_query_reads_printed_size :
  forall size ws1 ws2,
    within_digit_limit (string_of_nat size) = true ->
    PyStr.forall_chars PyStr.isspace ws1 = true ->
    PyStr.forall_chars PyStr.isspace ws2 = true ->
    get_partition_size
      {| returncode := 0;
         stdout := (ws1 ++ string_of_nat size ++ ws2)%string |}
    = Returned (Some (Z.of_nat size)).
Proof.
  intros size ws1 ws2 _ H1 H2. unfold get_partition_size.
  cbn [returncode stdout].
  rewrite (strip_padded_token _ _ _ H1 (string_of_nat_is_token size) H2).
  rewrite (int_some_isdigit _ _ (int_string_of_nat size)).
  now rewrite int_string_of_nat.
Qed.

Lemma size_query_reads_printed_size_witness :
  get_partition_size
    {| returncode := 0;
       stdout := ("" ++ string_of_nat 4096 ++ String NEWLINE "")%string |}
  = Returned (Some (Z.of_nat 4096)).
Proof.
  apply (size_query_reads_printed_size 4096 "" (String NEWLINE ""));
    reflexivity.
Defined.

Lemma get_partition_size_cases (probe : completed) :
  match get_partition_size probe with
  | Returned (Some v) =>
      (0 <= v)%Z /\ returncode probe = 0%Z
      /\ PyStr.int (PyStr.strip (stdout probe)) = Some v
  | Returned None =>
      returncode probe <> 0%Z
      \/ PyStr.isdigit (PyStr.strip (stdout probe)) = false
  | Raised e =>
      e = ValueError /\ returncode probe = 0%Z
      /\ PyStr.isdigit (PyStr.strip (stdout probe)) = true
  | Exited _ => False
  end.
Proof.
  unfold get_partition_size.
  destruct (returncode probe =? 0)%Z eqn:Hrc; cbn [andb].
  - apply Z.eqb_eq in Hrc.
    destruct (PyStr.isdigit (PyStr.strip (stdout probe))) eqn:Hd.
    + destruct (PyStr.int (PyStr.strip (stdout probe))) as [v|] eqn:Hv;
        cbn [of_option bind]; auto.
      split; [exact (int_nonneg _ _ Hv) | auto].
    + now right.
  - left. now apply Z.eqb_neq.
Qed.

(** X14: what the size query can answer.  A size is never negative and is
    only given for return code 0; the only exception is [ValueError], and
    only on an output that [isdigit] accepts; there is no [exit]. *)
Theorem size_query_outcomes :
  forall probe,
    match get_partition_size probe with
    | Returned (Some v) =>
        (0 <= v)%Z /\ returncode probe = 0%Z
        /\ PyStr.int (PyStr.strip (stdout probe)) = Some v
    | Returned None =>
        returncode probe <> 0%Z
        \/ PyStr.isdigit (PyStr.strip (stdout probe)) = false
    | Raised e =>
        e = ValueError /\ returncode probe = 0%Z
        /\ PyStr.isdigit (PyStr.strip (stdout probe)) = true
    | Exited _ => False
    end.
Proof. exact get_partition_size_cases. Qed.

(** ** The transfer loop, step by step *)

Lemma piece_lengths_step fuel size count :
  0 < count -> count <= S fuel ->
  piece_lengths (S fuel) size count
  = Nat.min size count :: piece_lengths fuel size (count - Nat.min size count).
Proof.
  intros Hpos _. cbn [piece_lengths].
  replace (count =? 0)%nat with false; [reflexivity|].
  symmetry. apply Nat.eqb_neq. lia.
Qed.

Lemma piece_lengths_fuel size :
  0 < size ->
  forall fuel fuel' count,
    count <= fuel -> count <= fuel' ->
    piece_lengths fuel size count = piece_lengths fuel' size count.
Proof.
  intros Hsize. induction fuel as [|fuel IH]; intros fuel' count Hf Hf'.
  - replace count with 0 by lia. destruct fuel'; reflexivity.
  - destruct fuel' as [|fuel'].
    + replace count with 0 by lia. reflexivity.
    + cbn [piece_lengths]. destruct (count =? 0)%nat eqn:Hz; [reflexivity|].
      apply Nat.eqb_neq in Hz. f_equal. apply IH; lia.
Qed.

(** The loop, exactly: the file gets the unread bytes, and the meter gets
    one update per piece of [size] bytes, the last piece possibly shorter,
    however the pipe delivered them. *)
Lemma transfer_loop_exact size :
  0 < size ->
  forall r f p,
    transfer_loop size r f p
    = (f ++ unread r,
       {| total := total p;
          n := n p + Z.of_nat (List.length (unread r));
          updates :=
            updates p
              ++ map Z.of_nat
                   (piece_lengths (List.length (unread r)) size
                                  (List.length (unread r)));
          closed := closed p |}).
Proof.
  intros Hsize r f p. funelim (transfer_loop size r f p).
  - match goal with E : read _ _ = ([], _) |- _ =>
      destruct (read_spec _ _ _ _ E) as [Hdata _] end.
    assert (Hnone : unread r = []).
    { destruct (unread r); [reflexivity|].
      destruct size; [lia | discriminate]. }
    rewrite Hnone. cbn [List.length piece_lengths map].
    rewrite !app_nil_r, Z.add_0_r. now destruct p.
  - match goal with E : read _ _ = (_ :: _, _) |- _ =>
      destruct (read_spec _ _ _ _ E) as [Hdata Hrest] end.
    match goal with
      IH : 0 < _ -> transfer_loop _ _ _ _ = _ |- _ => rewrite (IH Hsize) end.
    assert (Hsplit : unread r = (b :: data) ++ unread r').
    { rewrite Hdata, Hrest. symmetry. apply firstn_skipn. }
    assert (Hlen : List.length (b :: data)
                   = Nat.min size (List.length (unread r))).
    { rewrite Hdata. apply length_firstn. }
    assert (Hleft : List.length (unread r')
                    = List.length (unread r)
                      - Nat.min size (List.length (unread r))).
    { rewrite Hrest, length_skipn. lia. }
    cbn [tqdm_update total n updates closed].
    rewrite <- !app_assoc. f_equal.
    + now rewrite Hsplit.
    + f_equal.
      * rewrite Hsplit, length_app, Nat2Z.inj_add. lia.
      * f_equal.
        destruct (List.length (unread r)) as [|m] eqn:Hm;
          [rewrite Hsplit in Hm; discriminate|].
        rewrite piece_lengths_step by lia.
        cbn [map app]. rewrite Hlen. f_equal. f_equal.
        rewrite Hleft. apply piece_lengths_fuel; lia.
Qed.

Lemma CHUNK_positive : 0 < CHUNK.
Proof. unfold CHUNK. lia. Qed.

Lemma progress_branch_exact (partition_size : option Z) dd :
  pv_branch partition_size dd
  = {| saved := concat dd;
       progress :=
         Some {| total := partition_size;
                 n := Z.of_nat (List.length (concat dd));
                 updates :=
                   map Z.of_nat
                     (piece_lengths (List.length (concat dd)) CHUNK
                                    (List.length (concat dd)));
                 closed := true |} |}.
Proof.
  unfold pv_branch. rewrite (transfer_loop_exact CHUNK CHUNK_positive).
  unfold unread, Popen, tqdm_new, tqdm_close.
  cbn [buffered incoming total n updates closed app]. reflexivity.
Qed.

Lemma tqdm_branch_exact (partition_size : option Z) dd :
  tqdm_branch partition_size dd
  = {| saved := concat dd;
       progress :=
         Some {| total := partition_size;
                 n := Z.of_nat (List.length (concat dd));
                 updates :=
                   map Z.of_nat
                     (piece_lengths (List.length (concat dd)) CHUNK
                                    (List.length (concat dd)));
                 closed := true |} |}.
Proof.
  unfold tqdm_branch. rewrite (transfer_loop_exact CHUNK CHUNK_positive).
  unfold unread, Popen, tqdm_new, tqdm_close.
  cbn [buffered incoming total n updates closed app]. reflexivity.
Qed.

(** X15: how the pipe cuts the stream never shows.  Two devices that
    answer the probes alike and whose dumps deliver the same bytes, in
    whatever pieces, make [pull_image] end alike: same file, same meter
    with the same sequence of updates, same printed lines. *)
Theorem delivery_boundaries_do_not_matter :
  forall dev dev' save_path progress_tool,
    su_probe dev = su_probe dev' ->
    size_probe dev = size_probe dev' ->
    concat (dd_output dev) = concat (dd_output dev') ->
    pull_image dev save_path progress_tool
    = pull_image dev' save_path progress_tool.
Proof.
  intros dev dev' save_path progress_tool Hsu Hsize Hdd.
  unfold pull_image. rewrite Hsu, Hsize.
  destruct (check_root (su_probe dev')) as [out rooted].
  destruct (negb rooted); [reflexivity|].
  destruct (get_partition_size (size_probe dev')) as [size| |];
    try reflexivity.
  rewrite ?tqdm_branch_exact, ?progress_branch_exact. unfold default_branch. now rewrite Hdd.
Qed.

Lemma delivery_boundaries_do_not_matter_witness :
  pull_image sample_device "/tmp/boot.img" "tqdm"
  = pull_image
      {| su_probe := su_probe sample_device;
         size_probe := size_probe sample_device;
         dd_output := [[x7f]; [x45; x4c; x46]; [x00]] |}
      "/tmp/boot.img" "tqdm".
Proof.
  apply (delivery_boundaries_do_not_matter sample_device
           {| su_probe := su_probe sample_device;
              size_probe := size_probe sample_device;
              dd_output := [[x7f]; [x45; x4c; x46]; [x00]] |}
           "/tmp/boot.img" "tqdm");
    reflexivity.
Defined.

Lemma piece_lengths_bounds size :
  0 < size ->
  forall fuel count,
    Forall (fun k => 1 <= k <= size) (piece_lengths fuel size count).
Proof.
  intros Hsize. induction fuel as [|fuel IH]; intros count; simpl.
  - constructor.
  - destruct (count =? 0)%nat eqn:Hz; [constructor|].
    apply Nat.eqb_neq in Hz. constructor; [lia | apply IH].
Qed.

Lemma piece_lengths_sum size :
  0 < size ->
  forall fuel count,
    count <= fuel ->
    fold_right Nat.add 0 (piece_lengths fuel size count) = count.
Proof.
  intros Hsize. induction fuel as [|fuel IH]; intros count Hf; simpl.
  - lia.
  - destruct (count =? 0)%nat eqn:Hz.
    + apply Nat.eqb_eq in Hz. now subst.
    + apply Nat.eqb_neq in Hz. cbn [fold_right]. rewrite IH by lia. lia.
Qed.

Lemma piece_lengths_count size :
  0 < size ->
  forall fuel count,
    count <= fuel ->
    List.length (piece_lengths fuel size count) = (count + size - 1) / size.
Proof.
  intros Hsize. induction fuel as [|fuel IH]; intros count Hf.
  - replace count with 0 by lia. simpl.
    symmetry. apply Nat.div_small. lia.
  - cbn [piece_lengths]. destruct (count =? 0)%nat eqn:Hz.
    + apply Nat.eqb_eq in Hz. subst. simpl.
      symmetry. apply Nat.div_small. lia.
    + apply Nat.eqb_neq in Hz. cbn [List.length]. rewrite IH by lia.
      destruct (le_lt_dec count size) as [Hle | Hgt].
      * replace (Nat.min size count) with count by lia.
        replace (count - count + size - 1) with (size - 1) by lia.
        rewrite (Nat.div_small (size - 1)) by lia.
        replace (count + size - 1) with ((count - 1) + 1 * size) by lia.
        rewrite Nat.div_add by lia.
        rewrite (Nat.div_small (count - 1)) by lia. reflexivity.
      * replace (Nat.min size count) with size by lia.
        replace (count + size - 1)
          with ((count - size + size - 1) + 1 * size) by lia.
        rewrite Nat.div_add by lia. lia.
Qed.

(** X16: how the meter advances.  When a progress branch has copied a
    stream of N bytes, the meter was updated once per megabyte begun:
    ceil(N / 1 MiB) updates, each of at least 1 and at most 1 MiB bytes,
    adding up to N. *)
Theorem meter_advances_by_whole_chunks :
  forall partition_size dd p,
    progress (tqdm_branch partition_size dd) = Some p ->
    Forall (fun k => (1 <= k <= Z.of_nat CHUNK)%Z) (updates p)
    /\ fold_right Z.add 0%Z (updates p)
       = Z.of_nat (List.length (concat dd))
    /\ List.length (updates p)
       = (List.length (concat dd) + CHUNK - 1) / CHUNK
    /\ n p = fold_right Z.add 0%Z (updates p).
Proof.
  intros partition_size dd p. rewrite tqdm_branch_exact. cbn [progress].
  intros Hp. inversion Hp; subst p. clear Hp. cbn [updates n].
  pose proof CHUNK_positive as Hpos.
  set (N := List.length (concat dd)).
  assert (Hsum : fold_right Z.add 0%Z
                   (map Z.of_nat (piece_lengths N CHUNK N)) = Z.of_nat N).
  { rewrite <- (piece_lengths_sum CHUNK Hpos N N (le_n N)) at 3.
    induction (piece_lengths N CHUNK N) as [|k ks IH]; [reflexivity|].
    cbn [map fold_right]. rewrite IH. lia. }
  repeat split.
  - apply Forall_map.
    eapply Forall_impl; [|apply (piece_lengths_bounds CHUNK Hpos)].
    cbn beta. intros k Hk. lia.
  - exact Hsum.
  - rewrite length_map. now apply piece_lengths_count.
  - now rewrite Hsum.
Qed.

Lemma meter_advances_by_whole_chunks_witness :
  Forall (fun k => (1 <= k <= Z.of_nat CHUNK)%Z) [5%Z]
  /\ fold_right Z.add 0%Z [5%Z] = Z.of_nat 5
  /\ List.length [5%Z] = (5 + CHUNK - 1) / CHUNK
  /\ 5%Z = fold_right Z.add 0%Z [5%Z].
Proof.
  apply (meter_advances_by_whole_chunks (Some 5%Z)
           [[x7f; x45]; [x4c]; []; [x46; x00]]
           {| total := Some 5%Z; n := 5; updates := [5%Z];
              closed := true |}).
  vm_compute. reflexivity.
Defined.

(** ** [pull_image] as a whole *)

Lemma last_of_two_more {A} (l : list A) (a b d : A) :
  last (l ++ [a; b]) d = b.
Proof.
  replace (l ++ [a; b]) with ((l ++ [a]) ++ [b]) by (now rewrite <- app_assoc).
  apply last_last.
Qed.

Lemma pull_image_returns :
  forall dev save_path progress_tool out t,
    pull_image dev save_path progress_tool = (out, Returned t) ->
    saved t = concat (dd_output dev)
    /\ (progress t <> None
        <-> (progress_tool = "pv" \/ progress_tool = "tqdm")
            /\ exists v,
                get_partition_size (size_probe dev) = Returned (Some v)
                /\ v <> 0%Z)
    /\ last out EmptyString = ("Image saved to " ++ save_path)%string.
Proof.
  intros dev save_path progress_tool out t. unfold pull_image.
  destruct (check_root (su_probe dev)) as [out0 rooted].
  destruct (negb rooted); [discriminate|].
  destruct (get_partition_size (size_probe dev)) as [size| |];
    try discriminate.
  intros H. inversion H; subst out t. clear H.
  assert (Htruthy : truthy size = true
                    <-> exists v, Returned (A := option Z) size
                                  = Returned (Some v) /\ v <> 0%Z).
  { destruct size as [v|]; simpl.
    - rewrite negb_true_iff, Z.eqb_neq. split.
      + intros Hv. now exists v.
      + intros (v' & Hv' & Hnz). now inversion Hv'; subst.
    - split; [discriminate | intros (v & Hv & _); discriminate]. }
  split; [|split].
  - destruct (String.eqb progress_tool "pv" && truthy size);
      [now rewrite progress_branch_exact|].
    destruct (String.eqb progress_tool "tqdm" && truthy size);
      [now rewrite tqdm_branch_exact | reflexivity].
  - destruct (String.eqb_spec progress_tool "pv") as [-> | Hpv].
    + cbn [andb]. destruct (truthy size) eqn:Ht.
      * rewrite progress_branch_exact. cbn [progress].
        split; [intros _ | discriminate].
        split; [now left | now apply Htruthy].
      * change (String.eqb "pv" "tqdm") with false. cbn [andb].
        unfold default_branch. cbn [progress].
        split; [congruence|]. intros [_ Hex]. apply Htruthy in Hex.
        discriminate.
    + cbn [andb]. destruct (String.eqb_spec progress_tool "tqdm") as [-> | Htq].
      * cbn [andb]. destruct (truthy size) eqn:Ht.
        -- rewrite tqdm_branch_exact. cbn [progress].
           split; [intros _ | discriminate].
           split; [now right | now apply Htruthy].
        -- unfold default_branch. cbn [progress].
           split; [congruence|]. intros [_ Hex]. apply Htruthy in Hex.
           discriminate.
      * cbn [andb]. unfold default_branch. cbn [progress].
        split; [congruence | intros [[H | H] _]; contradiction].
  - apply last_of_two_more.
Qed.

(** X17: whatever the tool name and the size, a [pull_image] that returns
    has written exactly the stream; it has shown a meter exactly when the
    tool is ["pv"] or ["tqdm"] and the size query gave a size other than
    zero; and the last line printed names the destination. *)
Theorem pull_image_postcondition :
  forall dev save_path progress_tool out t,
    pull_image dev save_path progress_tool = (out, Returned t) ->
    saved t = concat (dd_output dev)
    /\ (progress t <> None
        <-> (progress_tool = "pv" \/ progress_tool = "tqdm")
            /\ exists v,
                get_partition_size (size_probe dev) = Returned (Some v)
                /\ v <> 0%Z)
    /\ last out EmptyString = ("Image saved to " ++ save_path)%string.
Proof. exact pull_image_returns. Qed.

Lemma pull_image_postcondition_witness :
  [x7f; x45; x4c; x46; x00] = concat (dd_output sample_unsized_device)
  /\ (@None tqdm <> None
      <-> ("pv" = "pv" \/ "pv" = "tqdm")
          /\ exists v,
              get_partition_size (size_probe sample_unsized_device)
              = Returned (Some v)
              /\ v <> 0%Z)
  /\ last [""; "Image saved to /tmp/boot.img"] EmptyString
     = ("Image saved to " ++ "/tmp/boot.img")%string.
Proof.
  apply (pull_image_postcondition sample_unsized_device "/tmp/boot.img" "pv"
           [""; "Image saved to /tmp/boot.img"]
           {| saved := [x7f; x45; x4c; x46; x00]; progress := None |}).
  reflexivity.
Defined.

(** X18: nothing is transferred without root.  [pull_image] exits, with
    status 1 and its own message, exactly when its root check says no,
    whatever the size query and the stream; it returns, and it raises,
    only after that check has passed. *)
Theorem pull_image_needs_root :
  forall dev save_path progress_tool,
    (snd (check_root (su_probe dev)) = false ->
     pull_image dev save_path progress_tool
     = (say (fst (check_root (su_probe dev))) NOT_ROOTED, Exited 1))
    /\ match snd (pull_image dev save_path progress_tool) with
       | Returned _ => snd (check_root (su_probe dev)) = true
       | Raised _ => snd (check_root (su_probe dev)) = true
       | Exited status =>
           status = 1%Z /\ snd (check_root (su_probe dev)) = false
       end.
Proof.
  intros dev save_path progress_tool. unfold pull_image.
  destruct (check_root (su_probe dev)) as [out rooted]. cbn [fst snd].
  destruct rooted; cbn [negb].
  - split; [discriminate|].
    pose proof (get_partition_size_cases (size_probe dev)) as Hq.
    destruct (get_partition_size (size_probe dev)) as [size | e | status];
      cbn [snd]; [reflexivity | reflexivity | contradiction].
  - split; [reflexivity | cbn [snd]; auto].
Qed.

Lemma pull_image_needs_root_witness :
  pull_image
    {| su_probe := inl {| returncode := 1; stdout := "" |};
       size_probe := size_probe sample_device;
       dd_output := dd_output sample_device |}
    "/tmp/boot.img" "tqdm"
  = (say [] NOT_ROOTED, Exited 1).
Proof.
  apply (proj1 (pull_image_needs_root
                  {| su_probe := inl {| returncode := 1; stdout := "" |};
                     size_probe := size_probe sample_device;
                     dd_output := dd_output sample_device |}
                  "/tmp/boot.img" "tqdm")).
  reflexivity.
Defined.

(** ** The destination selector over a whole session *)

Section SaveLocationSession.
Context `{OsPath}.

Lemma path_loop_skips bad :
  forall tail out,
    forallb refuses bad = true ->
    path_loop (bad ++ tail) out = path_loop tail (out ++ path_reprompts bad).
Proof.
  induction bad as [|path bad IH]; intros tail out Hbad.
  - unfold path_reprompts. simpl. now rewrite app_nil_r.
  - simpl in Hbad. apply andb_true_iff in Hbad as [Hpath Hbad].
    unfold refuses in Hpath. cbn [app path_loop].
    unfold path_reprompts. cbn [map concat]. fold (path_reprompts bad).
    destruct (isdir path) eqn:Hdir.
    + rewrite (IH _ _ Hbad). unfold say. now rewrite <- !app_assoc.
    + simpl in Hpath. apply negb_true_iff in Hpath. rewrite Hpath.
      rewrite (IH _ _ Hbad). unfold say. now rewrite <- !app_assoc.
Qed.

Lemma path_loop_result inputs :
  forall out c r,
    path_loop inputs out = (c, r) ->
    match r with
    | Returned path =>
        isdir path = false /\ isdir (dirname path) = true /\ In path inputs
    | Raised e => e = EOFError /\ pending c = []
    | Exited _ => False
    end
    /\ exists consumed, inputs = consumed ++ pending c.
Proof.
  induction inputs as [|path rest IH]; intros out c r Hloop; simpl in Hloop.
  - inversion Hloop; subst. cbn [pending]. split; [auto | now exists []].
  - assert (Hnext : forall out',
               path_loop rest out' = (c, r) ->
               match r with
               | Returned p =>
                   isdir p = false /\ isdir (dirname p) = true
                   /\ In p (path :: rest)
               | Raised e => e = EOFError /\ pending c = []
               | Exited _ => False
               end
               /\ exists consumed, path :: rest = consumed ++ pending c).
    { intros out' H'. destruct (IH _ _ _ H') as [Hr (consumed & Hc)]. split.
      - destruct r as [p| |]; auto.
        destruct Hr as (H1 & H2 & H3). repeat split; auto. now right.
      - exists (path :: consumed). simpl. now rewrite <- Hc. }
    destruct (isdir path) eqn:Hdir; [now apply Hnext in Hloop|].
    destruct (isdir (dirname path)) eqn:Hparent; [|now apply Hnext in Hloop].
    inversion Hloop; subst. cbn [pending].
    split; [|now exists [path]]. repeat split; auto. now left.
Qed.

End SaveLocationSession.

Lemma path_session `{OsPath} :
  forall bad good rest out,
    forallb refuses bad = true ->
    isdir good = false ->
    isdir (dirname good) = true ->
    choose_save_location {| pending := bad ++ good :: rest; printed := out |}
    = ({| pending := rest;
          printed := out ++ path_reprompts bad ++ [PROMPT_PATH] |},
       Returned good).
Proof.
  intros bad good rest out Hbad Hdir Hparent.
  unfold choose_save_location. cbn [pending printed].
  rewrite (path_loop_skips _ _ _ Hbad). cbn [path_loop].
  rewrite Hdir, Hparent. unfold say. now rewrite <- app_assoc.
Qed.

(** X19: a session with the destination selector.  After any number of
    refused paths (directories, or paths whose parent is no directory),
    the first path that is not a directory and whose parent is one is
    returned; each refused path got one prompt and its error line, and
    what was typed after the accepted path is left unread. *)
Theorem destination_selector_takes_first_valid_path `{OsPath} :
  forall bad good rest out,
    forallb refuses bad = true ->
    isdir good = false ->
    isdir (dirname good) = true ->
    choose_save_location {| pending := bad ++ good :: rest; printed := out |}
    = ({| pending := rest;
          printed := out ++ path_reprompts bad ++ [PROMPT_PATH] |},
       Returned good).
Proof. exact path_session. Qed.

Lemma destination_selector_takes_first_valid_path_witness :
  @choose_save_location sample_os_path
    {| pending := ["/tmp"; "boot.img"; "/tmp/boot.img"; "y"];
       printed := [] |}
  = ({| pending := ["y"];
        printed := [] ++ @path_reprompts sample_os_path ["/tmp"; "boot.img"]
                      ++ [PROMPT_PATH] |},
     Returned "/tmp/boot.img").
Proof.
  apply (@destination_selector_takes_first_valid_path sample_os_path
           ["/tmp"; "boot.img"] "/tmp/boot.img" ["y"] []);
    reflexivity.
Defined.

(** X20: what the destination selector can give back.  A returned path
    is one of the paths typed, is not a directory and has a directory as
    parent; the only way to fail is [EOFError], once every path typed was
    refused; and the entries left unread are a tail of those given. *)
Theorem destination_selector_postcondition `{OsPath} :
  forall c c' r,
    choose_save_location c = (c', r) ->
    match r with
    | Returned path =>
        isdir path = false /\ isdir (dirname path) = true
        /\ In path (pending c)
    | Raised e => e = EOFError /\ pending c' = []
    | Exited _ => False
    end
    /\ exists consumed, pending c = consumed ++ pending c'.
Proof.
  intros c c' r. unfold choose_save_location. apply path_loop_result.
Qed.

Lemma destination_selector_postcondition_witness :
  (@isdir sample_os_path "/tmp/boot.img" = false
   /\ @isdir sample_os_path (@dirname sample_os_path "/tmp/boot.img") = true
   /\ In "/tmp/boot.img" ["/tmp"; "/tmp/boot.img"; "y"])
  /\ exists consumed,
      ["/tmp"; "/tmp/boot.img"; "y"] = consumed ++ ["y"].
Proof.
  apply (@destination_selector_postcondition sample_os_path
           {| pending := ["/tmp"; "/tmp/boot.img"; "y"]; printed := [] |}
           {| pending := ["y"];
              printed := [PROMPT_PATH; ERROR_DIRECTORY; PROMPT_PATH] |}
           (Returned "/tmp/boot.img")).
  reflexivity.
Defined.

(** ** [get_device] *)

Lemma lacks_iff_forall_chars sep (s : string) :
  lacks sep s
  <-> PyStr.forall_chars (fun c => negb (Ascii.eqb sep c)) s = true.
Proof.
  unfold lacks. induction s as [|c s IH]; [split; reflexivity|].
  rewrite contains_char_cons, orb_false_iff. cbn [PyStr.forall_chars].
  rewrite andb_true_iff, negb_true_iff, IH. reflexivity.
Qed.

(** The first field of a split is the string up to its first separator. *)
Lemma split_on_aux_head sep (s : string) :
  forall cur,
    exists first rest post,
      PyStr.split_on_aux sep cur s = first :: rest
      /\ (cur ++ s)%string = (first ++ post)%string
      /\ (post = EmptyString \/ exists post', post = String sep post').
Proof.
  induction s as [|c s IH]; intros cur; simpl.
  - exists cur, [], EmptyString. auto.
  - destruct (Ascii.eqb_spec c sep) as [-> | Hne].
    + exists cur, (PyStr.split_on_aux sep EmptyString s), (String sep s).
      repeat split; auto. right. now exists s.
    + destruct (IH (cur ++ String c EmptyString)%string)
        as (first & rest & post & Hs & Hp & Hpost).
      exists first, rest, post. split; [exact Hs|]. split; [|exact Hpost].
      rewrite <- Hp, append_assoc. reflexivity.
Qed.

Lemma get_device_cases (listing : completed) :
  match get_device listing with
  | (out, Returned serial) =>
      out = []
      /\ lacks TAB serial /\ lacks NEWLINE serial
      /\ exists line post,
          nth_error (PyStr.split_on NEWLINE (PyStr.strip (stdout listing))) 1
          = Some line
          /\ line <> EmptyString
          /\ line = (serial ++ post)%string
          /\ (post = EmptyString \/ exists post', post = String TAB post')
  | (out, Exited status) =>
      out = [NO_DEVICE] /\ status = 1%Z
      /\ (nth_error (PyStr.split_on NEWLINE (PyStr.strip (stdout listing))) 1
          = None
          \/ nth_error (PyStr.split_on NEWLINE (PyStr.strip (stdout listing)))
               1 = Some EmptyString)
  | (_, Raised _) => False
  end.
Proof.
  unfold get_device.
  pose proof (split_on_aux_lacks NEWLINE (PyStr.strip (stdout listing))
                EmptyString eq_refl) as Hlines.
  fold (PyStr.split_on NEWLINE (PyStr.strip (stdout listing))) in Hlines.
  destruct (PyStr.split_on NEWLINE (PyStr.strip (stdout listing)))
    as [|header [|first others]]; cbn [tl nth_error]; auto.
  destruct (String.eqb_spec first "") as [-> | Hne]; [auto|].
  inversion Hlines as [|? ? _ Hrest]; subst.
  inversion Hrest as [|? ? Hfirst _]; subst.
  destruct (split_on_aux_head TAB first EmptyString)
    as (serial & rest & post & Hs & Hp & Hpost).
  unfold PyStr.split_on. rewrite Hs. cbn [nth_error of_option].
  pose proof (split_on_aux_lacks TAB first EmptyString eq_refl) as Htab.
  rewrite Hs in Htab. inversion Htab as [|? ? Hserial _]; subst.
  apply lacks_iff_forall_chars in Hfirst.
  pose proof (split_on_aux_forall_chars _ TAB first EmptyString
                eq_refl Hfirst) as Hnl.
  rewrite Hs in Hnl. inversion Hnl as [|? ? Hserial_nl _]; subst.
  apply lacks_iff_forall_chars in Hserial_nl.
  repeat split; auto. exists first, post. auto.
Qed.

(** X21: what device discovery answers.  It looks only at the second
    line of the stripped output of [adb devices]: when that line is
    missing or empty it prints its message and exits with status 1;
    otherwise it returns that line up to its first tab (the serial holds
    no tab and no line break, and what follows it in the line is nothing
    or starts with a tab), whatever other devices follow; it raises
    nothing. *)
Theorem device_discovery_reads_second_line :
  forall listing,
    match get_device listing with
    | (out, Returned serial) =>
        out = []
        /\ lacks TAB serial /\ lacks NEWLINE serial
        /\ exists line post,
            nth_error
              (PyStr.split_on NEWLINE (PyStr.strip (stdout listing))) 1
            = Some line
            /\ line <> EmptyString
            /\ line = (serial ++ post)%string
            /\ (post = EmptyString \/ exists post', post = String TAB post')
    | (out, Exited status) =>
        out = [NO_DEVICE] /\ status = 1%Z
        /\ (nth_error
              (PyStr.split_on NEWLINE (PyStr.strip (stdout listing))) 1
            = None
            \/ nth_error
                 (PyStr.split_on NEWLINE (PyStr.strip (stdout listing))) 1
               = Some EmptyString)
    | (_, Raised _) => False
    end.
Proof. exact get_device_cases. Qed.

(** ** [main]: the pipeline from end to end *)

Lemma check_adb_cases (version : option Z) :
  match check_adb version with
  | (out, Done _) => out = [] /\ version = Some 0%Z
  | (out, SystemExit status) =>
      out = [ADB_MISSING] /\ status = 1%Z /\ version = None
  | (out, CalledProcessError status) =>
      out = [] /\ status <> 0%Z /\ version = Some status
  | (_, Uncaught _) => False
  end.
Proof.
  unfold check_adb. destruct version as [status|]; [|auto].
  destruct (Z.eqb_spec status 0) as [-> | Hne]; auto.
Qed.

Lemma pull_image_returned_rooted dev save_path progress_tool out t :
  pull_image dev save_path progress_tool = (out, Returned t) ->
  snd (check_root (su_probe dev)) = true.
Proof.
  unfold pull_image. destruct (check_root (su_probe dev)) as [out0 rooted].
  destruct rooted; [reflexivity | discriminate].
Qed.

(** X22: without root [main] asks nothing.  When the root check in [main]
    says no, no line typed by the user is read and the run ends by an
    exit with status 1 (or, before that, with the [CalledProcessError] of
    a failing [adb version]); with the bridge and a device in place, the
    last thing printed is the not-rooted message. *)
Theorem main_without_root_reads_nothing :
  forall w,
    snd (check_root (su_in_main w)) = false ->
    pending (fst (main w)) = typed w
    /\ (snd (main w) = SystemExit 1
        \/ exists status,
            status <> 0%Z /\ snd (main w) = CalledProcessError status)
    /\ (adb_version w = Some 0%Z ->
        (exists serial, snd (get_device (adb_devices w)) = Returned serial) ->
        main w
        = ({| pending := typed w;
              printed := say (fst (check_root (su_in_main w)))
                             NOT_ROOTED_MAIN |},
           SystemExit 1)).
Proof.
  intros w Hroot. unfold main.
  pose proof (check_adb_cases (adb_version w)) as Hadb.
  destruct (check_adb (adb_version w)) as [out0 [[]|status|e|status]];
    cbn [fst snd pending].
  - destruct Hadb as [-> Hversion].
    pose proof (get_device_cases (adb_devices w)) as Hdev.
    destruct (get_device (adb_devices w)) as [out1 [serial|e|status]];
      cbn [fst snd pending].
    + destruct Hdev as (-> & _).
      destruct (check_root (su_in_main w)) as [out2 rooted].
      cbn [snd fst] in *. subst rooted. cbn [negb fst snd pending app].
      repeat split; auto.
    + contradiction.
    + destruct Hdev as (-> & -> & _). repeat split; auto.
      intros _ (serial & Hserial). discriminate.
  - destruct Hadb as (-> & -> & Hversion). repeat split; auto.
    intros Hv. congruence.
  - contradiction.
  - destruct Hadb as (-> & Hne & Hversion). repeat split.
    + right. now exists status.
    + intros Hv. congruence.
Qed.

Lemma main_without_root_reads_nothing_witness :
  main {| adb_version := adb_version sample_world;
          adb_devices := adb_devices sample_world;
          su_in_main := inr "adb: device offline";
          su_in_pull := su_in_pull sample_world;
          by_name_listing := by_name_listing sample_world;
          block_listing := block_listing sample_world;
          blockdev := blockdev sample_world;
          dd := dd sample_world;
          platform_system := platform_system sample_world;
          pv_installed := pv_installed sample_world;
          host_paths := host_paths sample_world;
          typed := typed sample_world |}
  = ({| pending := typed sample_world;
        printed := say ["Error while checking root status: adb: device offline"]
                       NOT_ROOTED_MAIN |},
     SystemExit 1).
Proof.
  apply (proj2 (proj2 (main_without_root_reads_nothing
           {| adb_version := adb_version sample_world;
              adb_devices := adb_devices sample_world;
              su_in_main := inr "adb: device offline";
              su_in_pull := su_in_pull sample_world;
              by_name_listing := by_name_listing sample_world;
              block_listing := block_listing sample_world;
              blockdev := blockdev sample_world;
              dd := dd sample_world;
              platform_system := platform_system sample_world;
              pv_installed := pv_installed sample_world;
              host_paths := host_paths sample_world;
              typed := typed sample_world |}
           eq_refl))).
  - reflexivity.
  - exists "R58M123ABC". reflexivity.
Defined.

(** X23: what a completed run guarantees.  When [main] runs to the end,
    the bridge answered, the device passed both root checks, the device
    path read is the full-disk path or the path built for a partition
    the enumerator listed, the destination is one of the paths typed, is
    not a directory and lies in an existing directory, and the bytes
    written are exactly the bytes the dump of that device path
    delivered. *)
Theorem completed_run_guarantees :
  forall w c p,
    main w = (c, Done p) ->
    adb_version w = Some 0%Z
    /\ snd (check_root (su_in_main w)) = true
    /\ snd (check_root (su_in_pull w)) = true
    /\ (source p = FULL_DISK
        \/ exists ds d,
            snd (list_partitions (by_name_listing w) (block_listing w))
            = Returned ds
            /\ In d ds /\ source p = device_path d)
    /\ @isdir (host_paths w) (destination p) = false
    /\ @isdir (host_paths w) (@dirname (host_paths w) (destination p)) = true
    /\ In (destination p) (typed w)
    /\ saved (image p) = concat (dd w (source p)).
Proof.
  intros w c p. unfold main.
  pose proof (check_adb_cases (adb_version w)) as Hadb.
  destruct (check_adb (adb_version w)) as [out0 [[]|status|e|status]];
    try discriminate.
  destruct Hadb as [_ Hversion].
  destruct (get_device (adb_devices w)) as [out1 [serial|e|status]];
    try discriminate.
  destruct (check_root (su_in_main w)) as [out2 rooted].
  destruct rooted; cbn [negb]; [|discriminate].
  destruct (list_partitions (by_name_listing w) (block_listing w))
    as [out3 [ds|e|status]]; try discriminate.
  destruct (choose_partition ds
              {| pending := typed w;
                 printed := out0 ++ out1 ++ out2 ++ out3 |})
    as [c1 [partition|e|status]] eqn:Hcp; try discriminate.
  destruct (@choose_save_location (host_paths w) c1)
    as [c2 [save_path|e|status]] eqn:Hsl; try discriminate.
  destruct (pull_image (device_at w partition) save_path
              (detect_progress_tool (platform_system w) (pv_installed w)))
    as [out4 [t|e|status]] eqn:Hpull; cbn [bind ending_of]; try discriminate.
  intros Hmain. inversion Hmain; subst c p. clear Hmain.
  cbn [source destination image snd].
  destruct (choose_partition_result _ _ _ _ Hcp) as [Hpath (used & Hused)].
  cbn [pending] in Hused.
  destruct (@path_loop_result (host_paths w) _ _ _ _ Hsl)
    as [(Hdir & Hparent & Hin) _].
  destruct (pull_image_returns _ _ _ _ _ Hpull) as (Hsaved & _).
  split; [exact Hversion|]. split; [reflexivity|].
  split; [exact (pull_image_returned_rooted _ _ _ _ _ Hpull)|].
  split.
  { destruct Hpath as [-> | (d & Hd & ->)]; [now left|].
    right. exists ds, d. auto. }
  split; [exact Hdir|]. split; [exact Hparent|]. split; [|exact Hsaved].
  rewrite Hused. apply in_or_app. now right.
Qed.

Lemma completed_run_guarantees_witness :
  adb_version sample_world = Some 0%Z
  /\ snd (check_root (su_in_main sample_world)) = true
  /\ snd (check_root (su_in_pull sample_world)) = true
  /\ ("/dev/block/mmcblk0p3" = FULL_DISK
      \/ exists ds d,
          snd (list_partitions (by_name_listing sample_world)
                               (block_listing sample_world))
          = Returned ds
          /\ In d ds /\ "/dev/block/mmcblk0p3" = device_path d)
  /\ @isdir sample_os_path "/tmp/vbmeta.img" = false
  /\ @isdir sample_os_path (@dirname sample_os_path "/tmp/vbmeta.img") = true
  /\ In "/tmp/vbmeta.img" (typed sample_world)
  /\ [x7f; x45; x4c; x46; x00]
     = concat (dd sample_world "/dev/block/mmcblk0p3").
Proof.
  apply (completed_run_guarantees sample_world (fst (main sample_world))
           {| source := "/dev/block/mmcblk0p3";
              destination := "/tmp/vbmeta.img";
              image :=
                {| saved := [x7f; x45; x4c; x46; x00];
                   progress :=
                     Some {| total := Some 5%Z; n := 5; updates := [5%Z];
                             closed := true |} |} |}).
  vm_compute. reflexivity.
Defined.

(** X24: a run in which everything is in place reaches the transfer.
    With the bridge answering, a device listed, the root check of [main]
    passed and a listing that parses, a user who, after any rejected
    entries, types a valid number of at most 4300 digits and, after any
    refused paths, a valid path makes [main] call [pull_image] on the
    device path that number resolves to, with that path and the tool
    [detect_progress_tool] names; [main] then ends as that call ends,
    what the call printed follows the prompts, and what was typed after
    the path is left unread. *)
Theorem run_with_everything_in_place_reaches_transfer :
  forall w serial ds bad choice v partition bad' path rest,
    adb_version w = Some 0%Z ->
    snd (get_device (adb_devices w)) = Returned serial ->
    snd (check_root (su_in_main w)) = true ->
    snd (list_partitions (by_name_listing w) (block_listing w))
    = Returned ds ->
    typed w = bad ++ choice :: bad' ++ path :: rest ->
    forallb (rejects (List.length ds)) bad = true ->
    within_digit_limit choice = true ->
    PyStr.int choice = Some v ->
    (1 <= v <= Z.of_nat (List.length ds) + 1)%Z ->
    resolve_choice ds choice = Returned partition ->
    forallb (@refuses (host_paths w)) bad' = true ->
    @isdir (host_paths w) path = false ->
    @isdir (host_paths w) (@dirname (host_paths w) path) = true ->
    main w
    = ({| pending := rest;
          printed :=
            ((((fst (get_device (adb_devices w))
                  ++ fst (check_root (su_in_main w))
                  ++ fst (list_partitions (by_name_listing w)
                                          (block_listing w)))
                 ++ menu ds)
                ++ reprompts bad ++ [PROMPT_CHOICE])
               ++ @path_reprompts (host_paths w) bad' ++ [PROMPT_PATH])
              ++ fst (pull_image (device_at w partition) path
                        (detect_progress_tool (platform_system w)
                                              (pv_installed w))) |},
       ending_of
         (t <- snd (pull_image (device_at w partition) path
                      (detect_progress_tool (platform_system w)
                                            (pv_installed w))) ;;
          Returned {| source := partition; destination := path;
                      image := t |})).
Proof.
  intros w serial ds bad choice v partition bad' path rest
         Hadb Hdev Hroot Hlist Htyped Hbad Hlimit Hv Hrange Hres
         Hbad' Hdir Hparent.
  unfold main. rewrite Hadb. cbn [check_adb Z.eqb].
  destruct (get_device (adb_devices w)) as [out1 r1].
  cbn [snd fst] in *. subst r1.
  destruct (check_root (su_in_main w)) as [out2 rooted].
  cbn [snd fst] in *. subst rooted. cbn [negb].
  destruct (list_partitions (by_name_listing w) (block_listing w))
    as [out3 r3].
  cbn [snd fst] in *. subst r3.
  rewrite Htyped.
  rewrite (selector_session _ _ _ _ _ _ Hbad Hlimit Hv Hrange), Hres.
  rewrite (@path_session (host_paths w) _ _ _ _ Hbad' Hdir Hparent).
  destruct (pull_image (device_at w partition) path
              (detect_progress_tool (platform_system w) (pv_installed w)))
    as [out4 r4].
  cbn [pending printed fst snd app]. reflexivity.
Qed.

Lemma run_with_everything_in_place_reaches_transfer_witness :
  main sample_world
  = ({| pending := [];
        printed :=
          ((((fst (get_device (adb_devices sample_world))
                ++ fst (check_root (su_in_main sample_world))
                ++ fst (list_partitions (by_name_listing sample_world)
                                        (block_listing sample_world)))
               ++ menu [("mmcblk0p12", "boot", "Bootloader");
                        ("mmcblk0p3", "vbmeta_system", "Android System")])
              ++ reprompts ["boot"] ++ [PROMPT_CHOICE])
             ++ @path_reprompts (host_paths sample_world) ["/tmp"]
             ++ [PROMPT_PATH])
            ++ fst (pull_image (device_at sample_world "/dev/block/mmcblk0p3")
                      "/tmp/vbmeta.img"
                      (detect_progress_tool (platform_system sample_world)
                                            (pv_installed sample_world))) |},
     ending_of
       (t <- snd (pull_image (device_at sample_world "/dev/block/mmcblk0p3")
                    "/tmp/vbmeta.img"
                    (detect_progress_tool (platform_system sample_world)
                                          (pv_installed sample_world))) ;;
        Returned {| source := "/dev/block/mmcblk0p3";
                    destination := "/tmp/vbmeta.img"; image := t |})).
Proof.
  apply (run_with_everything_in_place_reaches_transfer sample_world
           "R58M123ABC"
           [("mmcblk0p12", "boot", "Bootloader");
            ("mmcblk0p3", "vbmeta_system", "Android System")]
           ["boot"] "2" 2%Z "/dev/block/mmcblk0p3"
           ["/tmp"] "/tmp/vbmeta.img" []);
    try reflexivity.
  simpl. lia.
Defined.
